(** * Parakeet Whisper-compatible transcription service

    A shallow embedding of the in-repository logic of the service:
    chunk segmentation ([audio.py]), offset reconciliation and
    speaker-prefixed text reconstruction ([api.py]), overlap voting
    ([diarization/__init__.py]) and subtitle rendering
    ([transcription.py]).

    Conventions of the embedding.
    - Python [float] seconds are embedded as rationals [Q]; equality of
      times is [Qeq] ([==]).  The subtraction that [merge_with_transcription]
      makes rounds its result as the binary64 format does ([Float.sub]).
      Python [int] is [Z].
    - Python [str] is [string]; the helpers of [PyStr] cover the ASCII
      range of the corresponding [str] methods.
    - A Python [set] is a [gset].
    - A function that may raise returns a [result]; [try ... except
      Exception] is [try_except].
    - The external collaborators (ffmpeg, the [wave] module, the ASR model,
      the diarization pipeline, the temp-file name generators) are fields of
      an explicit environment record. *)

From Stdlib Require Import ZArith QArith Qround Qminmax Qpower Qabs Lqa.
From Stdlib Require Import String Ascii List Lia.
From Stdlib Require Import DecimalString Sorted.
From Stdlib Require DecimalFacts DecimalPos DecimalZ.
From stdpp Require Import gmap strings sorting.
Import ListNotations.
Open Scope string_scope.
Open Scope list_scope.

(** ** Exceptions and the error monad *)

Inductive exn : Type :=
| HTTPException (status_code : Z) (detail : string)
| Exception (msg : string).

Inductive result (A : Type) : Type :=
| Ok (a : A)
| Raise (e : exn).
Arguments Ok {A} a.
Arguments Raise {A} e.

(** ** The world a request runs in

    The temporary files on disk, the directories that were created, and
    the log of the ffmpeg command lines that were run.  Effects persist
    when an exception propagates. *)

Record World : Type := mkWorld {
  files : gset string;
  dirs : gset string;
  ffmpeg_calls : list (list string)
}.

Definition M (A : Type) : Type := World -> result A * World.

#[global] Instance M_ret : MRet M := fun A a w => (Ok a, w).

#[global] Instance M_bind : MBind M := fun A B k m w =>
  match m w with
  | (Ok a, w') => k a w'
  | (Raise e, w') => (Raise e, w')
  end.

Definition raise {A : Type} (e : exn) : M A := fun w => (Raise e, w).

Definition lift {A : Type} (r : result A) : M A := fun w => (r, w).

(** [try: m except Exception as e: h e].  Both constructors of [exn] are
    subclasses of Python's [Exception], so the handler catches either. *)
Definition try_except {A : Type} (m : M A) (h : exn -> M A) : M A := fun w =>
  match m w with
  | (Ok a, w') => (Ok a, w')
  | (Raise e, w') => h e w'
  end.

(** A file comes into existence (opened for writing, or written by the
    external tool). *)
Definition create_file (path : string) : M () := fun w =>
  (Ok (), mkWorld ({[ path ]} ∪ files w) (dirs w) (ffmpeg_calls w)).

(** [if os.path.exists(path): os.unlink(path)] *)
Definition unlink_if_exists (path : string) : M () := fun w =>
  (Ok (), mkWorld (files w ∖ {[ path ]}) (dirs w) (ffmpeg_calls w)).

(** A directory is created ([tempfile.mkdtemp()], or
    [Path.mkdir(parents=True, exist_ok=True)]); nothing in the code removes
    one. *)
Definition make_dir (path : string) : M () := fun w =>
  (Ok (), mkWorld (files w) ({[ path ]} ∪ dirs w) (ffmpeg_calls w)).

(** ** Comparison of float seconds *)

Definition Qltb (a b : Q) : bool :=
  match (a ?= b)%Q with
  | Lt => true
  | _ => false
  end.

(** Python's two-argument [max(a, b)] returns [a] unless [b > a];
    [min(a, b)] returns [a] unless [b < a]. *)
Definition py_max (a b : Q) : Q := if Qltb a b then b else a.
Definition py_min (a b : Q) : Q := if Qltb b a then b else a.

(** ** Float subtraction

    A [float] is a binary64 number: a significand of 53 bits and a power
    of two.  The exact difference of two floats is rounded to the nearest
    such number, to the one with the even significand on a tie.  A
    difference beyond the largest float is [float('inf')]; it is embedded
    as [2 ^ 1024], which is above every float and equal to itself, as
    [inf] is in a comparison.  The difference of two floats is a multiple
    of the smallest subnormal number, so that no rounding happens below
    the normal range, where the significand is shorter. *)

Module Float.

(** The nearest integer, the even one on a tie. *)
Definition nearest_even (x : Q) : Z :=
  let f := Qfloor x in
  match (x - inject_Z f ?= 1 # 2)%Q with
  | Lt => f
  | Gt => (f + 1)%Z
  | Eq => if Z.even f then f else (f + 1)%Z
  end.

(** [floor(log2(x))] of a positive [x]. *)
Definition ilog2 (x : Q) : Z :=
  let k := (Z.log2 (Qnum x) - Z.log2 (Zpos (Qden x)))%Z in
  if Qle_bool (2 ^ k) x then k else (k - 1)%Z.

(** A positive [x] rounded to a significand of 53 bits. *)
Definition round_pos (x : Q) : Q :=
  let e := (ilog2 x - 52)%Z in
  (inject_Z (nearest_even (x / 2 ^ e)) * 2 ^ e)%Q.

Definition infinity : Q := 2 ^ 1024.

Definition round (x : Q) : Q :=
  match (x ?= 0)%Q with
  | Eq => 0
  | Gt => let r := round_pos x in if Qle_bool infinity r then infinity else r
  | Lt => let r := round_pos (- x) in
          if Qle_bool infinity r then (- infinity)%Q else (- r)%Q
  end.

(** [a - b] on floats. *)
Definition sub (a b : Q) : Q := round (a - b).

End Float.

(** ** Python string and integer helpers *)

Module PyStr.

(** [s.startswith(p)] *)
Definition startswith (p s : string) : bool := String.prefix p s.

(** ASCII whitespace as [str.isspace] sees it. *)
Definition is_space (c : ascii) : bool :=
  let n := nat_of_ascii c in
  ((9 <=? n) && (n <=? 13) || (28 <=? n) && (n <=? 32))%nat.

Fixpoint lstrip (s : string) : string :=
  match s with
  | String c s' => if is_space c then lstrip s' else s
  | EmptyString => EmptyString
  end.

Fixpoint rstrip (s : string) : string :=
  match s with
  | String c s' =>
      match rstrip s' with
      | EmptyString => if is_space c then EmptyString else String c EmptyString
      | r => String c r
      end
  | EmptyString => EmptyString
  end.

(** [s.strip()] *)
Definition strip (s : string) : string := rstrip (lstrip s).

(** [s.split(sep)] for a one-character separator: the pieces between the
    occurrences of [sep], at least one piece. *)
Fixpoint split (sep : ascii) (s : string) : list string :=
  match s with
  | EmptyString => [EmptyString]
  | String c s' =>
      if Ascii.eqb c sep then EmptyString :: split sep s'
      else match split sep s' with
           | piece :: pieces => String c piece :: pieces
           | [] => [String c EmptyString]
           end
  end.

(** [s.replace(old, new)] for a non-empty [old]: a left-to-right scan that
    replaces each occurrence and resumes after it.  [skip] counts the
    characters of the occurrence still to be dropped. *)
Fixpoint replace_from (skip : nat) (old new s : string) : string :=
  match s with
  | EmptyString => EmptyString
  | String c s' =>
      match skip with
      | S k => replace_from k old new s'
      | O =>
          if String.prefix old s
          then new +:+ replace_from (String.length old - 1) old new s'
          else String c (replace_from 0 old new s')
      end
  end.

Definition replace (old new s : string) : string := replace_from 0 old new s.

(** [sep.join(parts)] *)
Definition join (sep : string) (parts : list string) : string :=
  String.concat sep parts.

(** [len(s.split())]: the number of maximal runs of non-whitespace. *)
Fixpoint count_words_from (in_word : bool) (s : string) : Z :=
  match s with
  | EmptyString => 0
  | String c s' =>
      if is_space c then count_words_from false s'
      else ((if in_word then 0 else 1) + count_words_from true s')%Z
  end.

Definition count_words (s : string) : Z := count_words_from false s.

(** [str(n)] for an [int]. *)
Definition str_of_int (n : Z) : string := NilZero.string_of_int (Z.to_int n).

Definition digit_of (c : ascii) : option Z :=
  let n := nat_of_ascii c in
  if ((48 <=? n) && (n <=? 57))%nat then Some (Z.of_nat (n - 48)) else None.

Fixpoint digits_value (acc : Z) (s : string) : option Z :=
  match s with
  | EmptyString => Some acc
  | String c s' =>
      match digit_of c with
      | Some d => digits_value (10 * acc + d) s'
      | None => None
      end
  end.

(** The whitespace [int] skips around the number: tab, line feed,
    vertical tab, form feed, carriage return and space.  The separators
    [\x1c] to [\x1f], which [str.strip] removes, are not among them. *)
Definition is_int_space (c : ascii) : bool :=
  let n := nat_of_ascii c in
  ((9 <=? n) && (n <=? 13) || (n =? 32))%nat.

Fixpoint int_lstrip (s : string) : string :=
  match s with
  | String c s' => if is_int_space c then int_lstrip s' else s
  | EmptyString => EmptyString
  end.

Fixpoint int_rstrip (s : string) : string :=
  match s with
  | String c s' =>
      match int_rstrip s' with
      | EmptyString => if is_int_space c then EmptyString else String c EmptyString
      | r => String c r
      end
  | EmptyString => EmptyString
  end.

(** [int(s)]: the whitespace around the number is skipped, one sign is
    allowed, and at least one decimal digit must follow; [None] stands
    for [ValueError].  Underscore digit separators are not modelled (the
    only caller passes a piece of a split on ["_"]). *)
Definition int (s : string) : option Z :=
  match int_rstrip (int_lstrip s) with
  | EmptyString => None
  | String "-" EmptyString | String "+" EmptyString => None
  | String "-" ds => Z.opp <$> digits_value 0 ds
  | String "+" ds => digits_value 0 ds
  | ds => digits_value 0 ds
  end.

(** Left-pad with ['0'] up to [width] characters. *)
Definition zero_pad (width : nat) (s : string) : string :=
  String.concat "" (repeat "0" (width - String.length s)) +:+ s.

End PyStr.

(** ** models.py *)

Module Models.

Record WhisperSegment : Type := mkWhisperSegment {
  id : Z;
  seek : Z;
  start : Q;
  end_ : Q;
  text : string;
  tokens : list Z;
  temperature : Q;
  avg_logprob : Q;
  compression_ratio : Q;
  no_speech_prob : Q;
  speaker : option string
}.

(** [WhisperSegment(id=.., start=.., end=.., text=..)] with the declared
    defaults for the remaining fields. *)
Definition new (i : Z) (s e : Q) (t : string) : WhisperSegment :=
  mkWhisperSegment i 0 s e t [] 0 0 1 (1 # 10) None.

Definition set_speaker (seg : WhisperSegment) (lbl : string) : WhisperSegment :=
  mkWhisperSegment (id seg) (seek seg) (start seg) (end_ seg) (text seg)
    (tokens seg) (temperature seg) (avg_logprob seg) (compression_ratio seg)
    (no_speech_prob seg) (Some lbl).

Definition set_text (seg : WhisperSegment) (t : string) : WhisperSegment :=
  mkWhisperSegment (id seg) (seek seg) (start seg) (end_ seg) t
    (tokens seg) (temperature seg) (avg_logprob seg) (compression_ratio seg)
    (no_speech_prob seg) (speaker seg).

Definition set_times (seg : WhisperSegment) (s e : Q) : WhisperSegment :=
  mkWhisperSegment (id seg) (seek seg) s e (text seg)
    (tokens seg) (temperature seg) (avg_logprob seg) (compression_ratio seg)
    (no_speech_prob seg) (speaker seg).

End Models.

(** ** diarization/__init__.py *)

Module Diarization.

Record SpeakerSegment : Type := mkSpeakerSegment {
  start : Q;
  end_ : Q;
  speaker : string
}.

Record DiarizationResult : Type := mkDiarizationResult {
  segments : list SpeakerSegment;
  num_speakers : Z
}.

(** [segments.sort(key=lambda x: x.start)]: a stable ascending sort. *)
Fixpoint insert_by_start (x : SpeakerSegment) (l : list SpeakerSegment)
  : list SpeakerSegment :=
  match l with
  | [] => [x]
  | y :: l' => if Qltb (start y) (start x) then y :: insert_by_start x l' else x :: l
  end.

Fixpoint sort_by_start (l : list SpeakerSegment) : list SpeakerSegment :=
  match l with
  | [] => []
  | x :: l' => insert_by_start x (sort_by_start l')
  end.

(** A track label as the pipeline yields it: a [str] ([inl]), or a label
    that is not a [str], for which pyannote uses integers ([inr]). *)
Definition label : Type := string + Z.

(** The [speaker_id] of a track label: a [str] that lacks the
    ["SPEAKER_"] prefix gets it; any other label is kept as it is. *)
Definition speaker_id (speaker0 : label) : label :=
  match speaker0 with
  | inl s => if negb (PyStr.startswith "SPEAKER_" s) then inl ("SPEAKER_" +:+ s)
             else speaker0
  | inr _ => speaker0
  end.

(** [f"{speaker_id}"] *)
Definition format_label (speaker_id : label) : string :=
  match speaker_id with
  | inl s => s
  | inr n => PyStr.str_of_int n
  end.

(** [Diarizer.diarize]: [pipeline] is [self.pipeline], [None] when the
    pipeline was not initialised; a failing run is logged and swallowed
    into the empty result. *)
Definition diarize (pipeline : option (string -> result (list (Q * Q * label))))
           (audio_path : string) : DiarizationResult :=
  match pipeline with
  | None => mkDiarizationResult [] 0
  | Some run =>
      match run audio_path with
      | Raise _ => mkDiarizationResult [] 0
      | Ok tracks =>
          let segments :=
            map (fun track : Q * Q * label =>
                   let '(turn_start, turn_end, speaker0) := track in
                   mkSpeakerSegment turn_start turn_end
                     ("speaker_" +:+ format_label (speaker_id speaker0)))
                tracks in
          let speakers : gset label :=
            list_to_set (map (fun track : Q * Q * label => speaker_id (snd track))
                             tracks) in
          mkDiarizationResult (sort_by_start segments) (Z.of_nat (size speakers))
      end
  end.

(** The inner loop of [merge_with_transcription]: the list
    [overlapping] of [(speaker, duration)] pairs, in turn order. *)
Fixpoint find_overlapping (start0 end0 : Q) (turns : list SpeakerSegment)
  : list (string * Q) :=
  match turns with
  | [] => []
  | spk_segment :: rest =>
      let overlap_start := py_max start0 (start spk_segment) in
      let overlap_end := py_min end0 (end_ spk_segment) in
      if Qltb overlap_start overlap_end
      then (speaker spk_segment, Float.sub overlap_end overlap_start)
             :: find_overlapping start0 end0 rest
      else find_overlapping start0 end0 rest
  end.

(** [overlapping.sort(key=lambda x: x[1], reverse=True)]: Python's sort
    is stable, also with [reverse=True]; entries with equal durations
    keep their relative order. *)
Fixpoint insert_desc (x : string * Q) (l : list (string * Q)) : list (string * Q) :=
  match l with
  | [] => [x]
  | y :: l' => if Qltb (snd x) (snd y) then y :: insert_desc x l' else x :: l
  end.

Fixpoint sort_by_duration_desc (l : list (string * Q)) : list (string * Q) :=
  match l with
  | [] => []
  | x :: l' => insert_desc x (sort_by_duration_desc l')
  end.

(** The label [merge_with_transcription] attaches to one segment. *)
Definition dominant_speaker (turns : list SpeakerSegment)
           (segment : Models.WhisperSegment) : string :=
  let overlapping :=
    find_overlapping (Models.start segment) (Models.end_ segment) turns in
  match sort_by_duration_desc overlapping with
  | first :: _ => fst first
  | [] => "unknown"
  end.

Definition merge_with_transcription (diarization : DiarizationResult)
           (transcription_segments : list Models.WhisperSegment)
  : list Models.WhisperSegment :=
  match segments diarization with
  | [] => transcription_segments
  | _ :: _ =>
      map (fun segment =>
             Models.set_speaker segment
               (dominant_speaker (segments diarization) segment))
          transcription_segments
  end.

(** The overlap duration as the specification writes it:
    [max(0, min(s.end, t.end) - max(s.start, t.start))], the subtraction
    being the one of floats. *)
Definition overlap (s : Models.WhisperSegment) (t : SpeakerSegment) : Q :=
  Qmax 0 (Float.sub (Qmin (Models.end_ s) (end_ t))
                    (Qmax (Models.start s) (start t))).

(** What one turn contributes to [overlapping]. *)
Definition entry (s : Models.WhisperSegment) (t : SpeakerSegment)
  : option (string * Q) :=
  let overlap_start := py_max (Models.start s) (start t) in
  let overlap_end := py_min (Models.end_ s) (end_ t) in
  if Qltb overlap_start overlap_end
  then Some (speaker t, Float.sub overlap_end overlap_start)
  else None.

Definition turn_le (a b : SpeakerSegment) : Prop := (start a <= start b)%Q.

End Diarization.

(** ** transcription.py *)

Module Transcription.

(** [int(x)] of a float: truncation toward zero. *)
Definition int_of_float (x : Q) : Z :=
  if Qltb x 0 then Qceiling x else Qfloor x.

(** [x % m] on floats, for a positive [m]: the result lies in [[0, m)]. *)
Definition float_mod (x : Q) (m : Z) : Q :=
  (x - inject_Z (m * Qfloor (x / inject_Z m)))%Q.

(** Rounding to the nearest integer, ties to even, as the [f]
    presentation type does on the exact value. *)
Definition round_half_even (x : Q) : Z :=
  let f := Qfloor x in
  match ((x - inject_Z f) ?= 1 # 2)%Q with
  | Lt => f
  | Gt => (f + 1)%Z
  | Eq => if Z.even f then f else (f + 1)%Z
  end.

(** [f"{x:06.3f}"]: three decimals, sign first, zero-padded to six
    characters. *)
Definition format_06_3f (x : Q) : string :=
  let m := Z.abs (round_half_even (x * 1000)) in
  let body := PyStr.str_of_int (m / 1000) +:+ "." +:+
              PyStr.zero_pad 3 (PyStr.str_of_int (m mod 1000)) in
  if Qltb x 0 then "-" +:+ PyStr.zero_pad 5 body else PyStr.zero_pad 6 body.

(** [f"{n:02d}"] *)
Definition format_02d (n : Z) : string :=
  if (n <? 0)%Z then "-" +:+ PyStr.zero_pad 1 (PyStr.str_of_int (- n))
  else PyStr.zero_pad 2 (PyStr.str_of_int n).

Definition _format_timestamp (seconds : Q) (always_include_hours : bool)
           (decimal_marker : string) : string :=
  let hours := int_of_float (seconds / 3600) in
  let seconds := float_mod seconds 3600 in
  let minutes := int_of_float (seconds / 60) in
  let seconds := float_mod seconds 60 in
  let hours_marker :=
    if always_include_hours || (0 <? hours)%Z
    then PyStr.str_of_int hours +:+ ":" else "" in
  if String.eqb decimal_marker ","
  then PyStr.replace "." decimal_marker
         (hours_marker +:+ format_02d minutes +:+ ":" +:+ format_06_3f seconds)
  else hours_marker +:+ format_02d minutes +:+ ":" +:+ format_06_3f seconds.

Definition nl : string := String (ascii_of_nat 10) EmptyString.

(** [segment.speaker] when the attribute is set and truthy. *)
Definition truthy_speaker (segment : Models.WhisperSegment) : option string :=
  match Models.speaker segment with
  | Some EmptyString => None
  | other => other
  end.

(** The text body of one SRT cue: the stripped text with ["-->"]
    replaced by ["->"]. *)
Definition srt_text (segment : Models.WhisperSegment) : string :=
  PyStr.replace "-->" "->" (PyStr.strip (Models.text segment)).

(** One iteration of the loop of [format_srt]; [i] is the 0-based index
    given by [enumerate]. *)
Definition srt_entry (i : nat) (segment : Models.WhisperSegment) : string :=
  let segment_id := (Z.of_nat i + 1)%Z in
  let start := _format_timestamp (Models.start segment) true "," in
  let end_ := _format_timestamp (Models.end_ segment) true "," in
  let text := srt_text segment in
  let speaker_prefix :=
    match truthy_speaker segment with
    | Some spk => "[" +:+ spk +:+ "] "
    | None => ""
    end in
  PyStr.str_of_int segment_id +:+ nl +:+ start +:+ " --> " +:+ end_ +:+ nl +:+
  speaker_prefix +:+ text +:+ nl +:+ nl.

Fixpoint srt_loop (i : nat) (segments : list Models.WhisperSegment)
         (srt_content : string) : string :=
  match segments with
  | [] => srt_content
  | segment :: rest => srt_loop (S i) rest (srt_content +:+ srt_entry i segment)
  end.

Definition format_srt (segments : list Models.WhisperSegment) : string :=
  PyStr.strip (srt_loop 0 segments "").

Definition vtt_entry (segment : Models.WhisperSegment) : string :=
  let start := _format_timestamp (Models.start segment) true "." in
  let end_ := _format_timestamp (Models.end_ segment) true "." in
  let text := PyStr.strip (Models.text segment) in
  let speaker_prefix :=
    match truthy_speaker segment with
    | Some spk => "<v " +:+ spk +:+ ">"
    | None => ""
    end in
  start +:+ " --> " +:+ end_ +:+ nl +:+ speaker_prefix +:+ text +:+ nl +:+ nl.

Fixpoint vtt_loop (segments : list Models.WhisperSegment)
         (vtt_content : string) : string :=
  match segments with
  | [] => vtt_content
  | segment :: rest => vtt_loop rest (vtt_content +:+ vtt_entry segment)
  end.

Definition format_vtt (segments : list Models.WhisperSegment) : string :=
  PyStr.strip (vtt_loop segments ("WEBVTT" +:+ nl +:+ nl)).

(** What the ASR model returns for one audio path: the text and, when
    the model provides them, the segment-level timestamps. *)
Record Stamp : Type := mkStamp {
  stamp_start : Q;
  stamp_end : Q;
  stamp_segment : string
}.

Record AsrHypothesis : Type := mkAsrHypothesis {
  hyp_text : string;
  hyp_timestamp_segment : option (list Stamp)
}.

Fixpoint stamps_to_segments (i : nat) (stamps : list Stamp)
  : list Models.WhisperSegment :=
  match stamps with
  | [] => []
  | stamp :: rest =>
      Models.new (Z.of_nat i) (stamp_start stamp) (stamp_end stamp)
                 (stamp_segment stamp)
      :: stamps_to_segments (S i) rest
  end.

(** [model] is [model.transcribe([audio_path], timestamps=True)]; any
    exception it raises is logged and swallowed into [("", [])]. *)
Definition transcribe_audio_chunk
           (model : string -> result (list AsrHypothesis)) (audio_path : string)
  : string * list Models.WhisperSegment :=
  match model audio_path with
  | Raise _ => ("", [])
  | Ok [] => ("", [])
  | Ok (result :: _) =>
      let text := hyp_text result in
      match hyp_timestamp_segment result with
      | Some stamps => (text, stamps_to_segments 0 stamps)
      | None =>
          (text, [Models.new 0 0 (inject_Z (PyStr.count_words text) / 2) text])
      end
  end.

End Transcription.

(** ** The external collaborators and the configuration *)

Record Env : Type := mkEnv {
  (** [wave.open(path)]: [(getnframes(), getframerate())], or an error
      for an unreadable file *)
  wave_open : string -> result (Z * Z);
  (** the directory [tempfile.mkdtemp()] returns *)
  mkdtemp : string;
  (** the name of [tempfile.NamedTemporaryFile(suffix='.wav', delete=False)] *)
  named_temporary_file : string;
  (** [subprocess.run(cmd, ...)]: [(returncode, stderr)] *)
  ffmpeg : list string -> Z * string;
  (** the global [asr_model]: [None] until loaded, then its
      [transcribe([path], timestamps=True)] *)
  asr_model : option (string -> result (list Transcription.AsrHypothesis));
  (** the pyannote pipeline of a [Diarizer], [None] when it could not be
      initialised; it yields the [(turn.start, turn.end, speaker)] tracks *)
  pipeline : option (string -> result (list (Q * Q * Diarization.label)));
  (** [os.urandom(8).hex()] *)
  urandom_hex : string;
  (** [str(e)] of an [HTTPException] *)
  http_exception_str : Z -> string -> string;
  config_temp_dir : string;
  config_chunk_duration : Z;
  config_include_diarization_in_text : bool;
  config_hf_token : option string
}.

(** [subprocess.run(cmd)] for an ffmpeg command line writing to [output]:
    the call is logged, and the output file exists once the tool
    succeeded. *)
Definition subprocess_run (env : Env) (cmd : list string) (output : string)
  : M (Z * string) := fun w =>
  let r := ffmpeg env cmd in
  let fs := if (fst r =? 0)%Z then {[ output ]} ∪ files w else files w in
  (Ok r, mkWorld fs (dirs w) (ffmpeg_calls w ++ [cmd])).

Definition str_of_exn (env : Env) (e : exn) : string :=
  match e with
  | HTTPException status_code detail => http_exception_str env status_code detail
  | Exception msg => msg
  end.

(** ** audio.py *)

Module Audio.

Definition split_cmd (audio_path : string) (start_time chunk_duration : Z)
           (output_path : string) : list string :=
  [ "ffmpeg"; "-y";
    "-ss"; PyStr.str_of_int start_time;
    "-i"; audio_path;
    "-t"; PyStr.str_of_int chunk_duration;
    "-c:a"; "pcm_s16le"; "-ar"; "16000"; "-ac"; "1";
    output_path ].

(** [os.path.join(temp_dir, f"chunk_{i}.wav")] *)
Definition chunk_path (temp_dir : string) (i : nat) : string :=
  temp_dir +:+ "/" +:+ "chunk_" +:+ PyStr.str_of_int (Z.of_nat i) +:+ ".wav".

(** The [for i in range(num_chunks)] loop; [indices] is what remains of
    the range. *)
Fixpoint split_loop (env : Env) (audio_path : string) (chunk_duration : Z)
         (temp_dir : string) (indices : list nat) (chunk_paths : list string)
  : M (list string) :=
  match indices with
  | [] => mret chunk_paths
  | i :: rest =>
      let start_time := (Z.of_nat i * chunk_duration)%Z in
      let output_path := chunk_path temp_dir i in
      result ← subprocess_run env
                 (split_cmd audio_path start_time chunk_duration output_path)
                 output_path;
      if (fst result =? 0)%Z
      then split_loop env audio_path chunk_duration temp_dir rest
             (chunk_paths ++ [output_path])
      else raise (Exception ("Failed to split audio: " +:+ snd result))
  end.

(** [a / b] on Python numbers: [ZeroDivisionError] for a zero divisor. *)
Definition true_div (a b : Q) : M Q :=
  if Qeq_bool b 0 then raise (Exception "division by zero")
  else mret (a / b)%Q.

Definition split_audio_into_chunks (env : Env) (audio_path : string)
           (chunk_duration : Z) : M (list string) :=
  try_except
    (info ← lift (wave_open env audio_path);
     let frames := fst info in
     let rate := snd info in
     duration ← true_div (inject_Z frames) (inject_Z rate);
     if negb (Qltb (inject_Z chunk_duration) duration)
     then mret [audio_path]
     else
       ratio ← true_div duration (inject_Z chunk_duration);
       let num_chunks := Qceiling ratio in
       let temp_dir := mkdtemp env in
       _ ← make_dir temp_dir;
       split_loop env audio_path chunk_duration temp_dir
                  (seq 0 (Z.to_nat num_chunks)) [])
    (fun e => mret [audio_path]).

Definition convert_cmd (audio_path output_path : string) : list string :=
  [ "ffmpeg"; "-y"; "-i"; audio_path;
    "-c:a"; "pcm_s16le"; "-ar"; "16000"; "-ac"; "1";
    output_path ].

Definition convert_audio_to_wav (env : Env) (audio_path : string) : M string :=
  let output_path := named_temporary_file env in
  _ ← create_file output_path;
  try_except
    (result ← subprocess_run env (convert_cmd audio_path output_path) output_path;
     if (fst result =? 0)%Z
     then mret output_path
     else raise (Exception ("Failed to convert audio: " +:+ snd result)))
    (fun e => _ ← unlink_if_exists output_path; raise e).

End Audio.

(** ** api.py *)

Module Api.

(** The form fields of a request that the handler reads.
    [file_suffix] is [Path(file.filename).suffix]. *)
Record Request : Type := mkRequest {
  file_suffix : string;
  language : option string;
  response_format : string;
  timestamps : bool;
  word_timestamps : bool;
  diarize : bool;
  include_diarization_in_text : option bool
}.

(** [TranscriptionResponse], and what its [dict()] keeps of it. *)
Record TranscriptionResponse : Type := mkTranscriptionResponse {
  text : string;
  segments : option (list Models.WhisperSegment);
  language_ : option string;
  task : string;
  duration : option Q;
  model : option string
}.

Definition dict (r : TranscriptionResponse) : TranscriptionResponse :=
  match segments r with
  | Some (_ :: _) => r
  | _ => mkTranscriptionResponse (text r) None (language_ r) (task r)
           (duration r) (model r)
  end.

Inductive Response : Type :=
| JSONResponse (body : TranscriptionResponse)
| PlainTextResponse (content : string).

(** *** Offset reconciliation (the loop over [enumerate(audio_chunks)]) *)

Definition add_offset (offset : Z) (segment : Models.WhisperSegment)
  : Models.WhisperSegment :=
  Models.set_times segment
    (Models.start segment + inject_Z offset)%Q
    (Models.end_ segment + inject_Z offset)%Q.

Fixpoint process_chunks
         (asr : string -> result (list Transcription.AsrHypothesis))
         (chunk_duration : Z) (i : nat) (audio_chunks : list string)
         (all_text : list string) (all_segments : list Models.WhisperSegment)
  : list string * list Models.WhisperSegment :=
  match audio_chunks with
  | [] => (all_text, all_segments)
  | chunk_path :: rest =>
      let transcribed := Transcription.transcribe_audio_chunk asr chunk_path in
      let chunk_text := fst transcribed in
      let chunk_segments :=
        if (0 <? i)%nat
        then let offset := (Z.of_nat i * chunk_duration)%Z in
             map (add_offset offset) (snd transcribed)
        else snd transcribed in
      process_chunks asr chunk_duration (S i) rest
        (all_text ++ [chunk_text]) (all_segments ++ chunk_segments)
  end.

(** *** Speaker-prefixed text *)

Record PrefixState : Type := mkPrefixState {
  previous_speaker : option string;
  seen_speakers : gset string
}.

Definition differs (speaker_label : string) (previous : option string) : bool :=
  match previous with
  | Some p => negb (String.eqb speaker_label p)
  | None => true
  end.

(** The body of [for segment in all_segments]. *)
Definition prefix_segment (st : PrefixState) (segment : Models.WhisperSegment)
  : PrefixState * Models.WhisperSegment :=
  match Transcription.truthy_speaker segment with
  | None => (st, segment)
  | Some speaker_label =>
      if PyStr.startswith "speaker_" speaker_label then
        let parts := PyStr.split "_" speaker_label in
        match PyStr.int (List.last parts "") with
        | Some n =>
            let speaker_num := (n + 1)%Z in
            if differs speaker_label (previous_speaker st) then
              if bool_decide (speaker_label ∉ seen_speakers st) then
                let prefix := "Speaker " +:+ PyStr.str_of_int speaker_num +:+ ": " in
                (mkPrefixState (Some speaker_label)
                               ({[ speaker_label ]} ∪ seen_speakers st),
                 Models.set_text segment (prefix +:+ Models.text segment))
              else
                let prefix := PyStr.str_of_int speaker_num +:+ ": " in
                (mkPrefixState (Some speaker_label) (seen_speakers st),
                 Models.set_text segment (prefix +:+ Models.text segment))
            else (mkPrefixState (Some speaker_label) (seen_speakers st), segment)
        | None =>
            if differs "Speaker" (previous_speaker st) then
              (mkPrefixState (Some "Speaker") (seen_speakers st),
               Models.set_text segment ("Speaker: " +:+ Models.text segment))
            else (st, segment)
        end
      else (st, segment)
  end.

Fixpoint prefix_loop (st : PrefixState) (all_segments : list Models.WhisperSegment)
  : list Models.WhisperSegment :=
  match all_segments with
  | [] => []
  | segment :: rest =>
      let r := prefix_segment st segment in
      snd r :: prefix_loop (fst r) rest
  end.

(** The segments with their texts prefixed in place, and the rebuilt
    [full_text]. *)
Definition include_speakers_in_text (all_segments : list Models.WhisperSegment)
  : list Models.WhisperSegment * string :=
  let labelled := prefix_loop (mkPrefixState None ∅) all_segments in
  (labelled, PyStr.join " " (map Models.text labelled)).

(** *** The handler of [POST /v1/audio/transcriptions] *)

Definition is_truthy (s : option string) : bool :=
  match s with
  | Some (String _ _) => true
  | _ => false
  end.

Fixpoint unlink_chunks (wav_file : string) (audio_chunks : list string) : M () :=
  match audio_chunks with
  | [] => mret ()
  | chunk :: rest =>
      _ ← (if negb (String.eqb chunk wav_file)
           then unlink_if_exists chunk else mret ());
      unlink_chunks wav_file rest
  end.

Definition estimated_duration (all_segments : list Models.WhisperSegment) : Q :=
  match all_segments with
  | [] => 0
  | _ :: _ =>
      inject_Z (fold_left Z.add
                  (map (fun segment => PyStr.count_words (Models.text segment))
                       all_segments) 0%Z) / 150
  end.

Definition transcribe_body (env : Env)
           (asr : string -> result (list Transcription.AsrHypothesis))
           (req : Request) : M Response :=
  let temp_file :=
    config_temp_dir env +:+ "/" +:+ "upload_" +:+ urandom_hex env +:+ file_suffix req in
  _ ← make_dir (config_temp_dir env);
  _ ← create_file temp_file;
  wav_file ← Audio.convert_audio_to_wav env temp_file;
  let chunk_duration := config_chunk_duration env in
  audio_chunks ← Audio.split_audio_into_chunks env wav_file chunk_duration;
  let diarizer :=
    if diarize req && is_truthy (config_hf_token env)
    then Some (pipeline env) else None in
  let diarization_result :=
    match diarizer with
    | Some pl => Some (Diarization.diarize pl wav_file)
    | None => None
    end in
  let processed := process_chunks asr chunk_duration 0 audio_chunks [] [] in
  let all_segments := snd processed in
  let full_text := PyStr.join " " (fst processed) in
  let diarized :=
    match diarization_result with
    | Some d =>
        match Diarization.segments d with
        | _ :: _ =>
            let merged := Diarization.merge_with_transcription d all_segments in
            let use_diarization_in_text :=
              match include_diarization_in_text req with
              | Some b => b
              | None => config_include_diarization_in_text env
              end in
            if use_diarization_in_text
            then include_speakers_in_text merged
            else (merged, full_text)
        | [] => (all_segments, full_text)
        end
    | None => (all_segments, full_text)
    end in
  let all_segments := fst diarized in
  let full_text := snd diarized in
  let response :=
    mkTranscriptionResponse full_text
      (if timestamps req || String.eqb (response_format req) "verbose_json"
       then Some all_segments else None)
      (language req) "transcribe"
      (Some (estimated_duration all_segments))
      (Some "parakeet-tdt-0.6b-v3") in
  _ ← unlink_if_exists temp_file;
  _ ← (if negb (String.eqb wav_file temp_file)
       then unlink_if_exists wav_file else mret ());
  _ ← unlink_chunks wav_file audio_chunks;
  if String.eqb (response_format req) "json" then mret (JSONResponse (dict response))
  else if String.eqb (response_format req) "text" then mret (PlainTextResponse full_text)
  else if String.eqb (response_format req) "srt"
       then mret (PlainTextResponse (Transcription.format_srt all_segments))
  else if String.eqb (response_format req) "vtt"
       then mret (PlainTextResponse (Transcription.format_vtt all_segments))
  else if String.eqb (response_format req) "verbose_json"
       then mret (JSONResponse (dict response))
  else raise (HTTPException 400
                ("Unsupported response format: " +:+ response_format req)).

Definition transcribe_audio (env : Env) (req : Request) : M Response :=
  match asr_model env with
  | None =>
      raise (HTTPException 503
               "Model not loaded yet. Please try again in a few moments.")
  | Some asr =>
      try_except (transcribe_body env asr req)
        (fun e => raise (HTTPException 500 (str_of_exn env e)))
  end.

(** The status code the client sees: 200 for a returned response, the
    status of the [HTTPException] otherwise. *)
Definition status_of (r : result Response) : Z :=
  match r with
  | Ok _ => 200
  | Raise (HTTPException status_code _) => status_code
  | Raise (Exception _) => 500
  end.

Definition supported_formats : list string :=
  ["json"; "text"; "srt"; "vtt"; "verbose_json"].

End Api.

(** ** Definitions used to state the properties *)

(** The chunk-local segments the ASR step produces for one chunk. *)
Definition raw_segments (asr : string -> result (list Transcription.AsrHypothesis))
           (chunk_path : string) : list Models.WhisperSegment :=
  snd (Transcription.transcribe_audio_chunk asr chunk_path).

(** What chunk [i] adds to the file-level segment list. *)
Definition contribution (asr : string -> result (list Transcription.AsrHypothesis))
           (chunk_duration : Z) (i : nat) (chunk_path : string)
  : list Models.WhisperSegment :=
  if (0 <? i)%nat
  then map (Api.add_offset (Z.of_nat i * chunk_duration)) (raw_segments asr chunk_path)
  else raw_segments asr chunk_path.

Fixpoint contributions (asr : string -> result (list Transcription.AsrHypothesis))
         (chunk_duration : Z) (i : nat) (audio_chunks : list string)
  : list (list Models.WhisperSegment) :=
  match audio_chunks with
  | [] => []
  | chunk_path :: rest =>
      contribution asr chunk_duration i chunk_path
      :: contributions asr chunk_duration (S i) rest
  end.


(** The assumption on the ASR output of one chunk: start times in
    non-decreasing order and inside [[0, chunk_duration]]. *)
Definition well_timed (asr : string -> result (list Transcription.AsrHypothesis))
           (chunk_duration : Z) (chunk_path : string) : Prop :=
  Sorted Qle (map Models.start (raw_segments asr chunk_path)) /\
  Forall (fun s => (0 <= Models.start s)%Q /\
                   (Models.start s <= inject_Z chunk_duration)%Q)
         (raw_segments asr chunk_path).

(** The command line [split_audio_into_chunks] issues for window [i]. *)
Definition window_cmd (env : Env) (audio_path : string) (chunk_duration : Z)
           (i : nat) : list string :=
  Audio.split_cmd audio_path (Z.of_nat i * chunk_duration) chunk_duration
                  (Audio.chunk_path (mkdtemp env) i).

(** The external tool: what it extracts for [-ss start_time -t chunk_duration] from
    an input of [duration] seconds: the part of the requested window that
    lies inside the input. *)
Definition extracted_length (duration : Q) (start_time chunk_duration : Z) : Q :=
  Qmax 0 (Qmin (inject_Z chunk_duration) (duration - inject_Z start_time)).

(** A decimal integer argument of a command line, read back. *)
Definition decimal_arg (s : string) : option Z :=
  option_map Z.of_int (NilZero.int_of_string s).

(** The value the arguments of an ffmpeg command line give to the option
    [name]: [-y] is a switch, every other [-option] takes the argument
    after it as its value, anything else is an output file. *)
Fixpoint option_value (name : string) (args : list string) : option string :=
  match args with
  | [] => None
  | a :: rest =>
      if String.eqb a "-y" then option_value name rest
      else if PyStr.startswith "-" a then
        match rest with
        | v :: rest' => if String.eqb a name then Some v else option_value name rest'
        | [] => None
        end
      else option_value name rest
  end.

(** The window an ffmpeg command line cuts out of an input of [duration]
    seconds: where it starts ([-ss]) and how long the extracted audio is
    ([-t], as far as the input reaches). *)
Definition cut_window (duration : Q) (cmd : list string) : option (Z * Q) :=
  match cmd with
  | [] => None
  | _ :: args =>
      match option_value "-ss" args ≫= decimal_arg,
            option_value "-t" args ≫= decimal_arg with
      | Some start_time, Some length =>
          Some (start_time, extracted_length duration start_time length)
      | _, _ => None
      end
  end.

(** [frames / rate] *)
Definition duration_of (frames rate : Z) : Q := (inject_Z frames / inject_Z rate)%Q.

(** [math.ceil(duration / chunk_duration)] as a loop count. *)
Definition num_chunks (duration : Q) (chunk_duration : Z) : nat :=
  Z.to_nat (Qceiling (duration / inject_Z chunk_duration)).

(** *** Speaker prefixes, as the specification words them *)

(** The number shown for a label: the label prefix stripped, the last
    component read as an integer, plus one. *)
Definition speaker_number (speaker_label : string) : option Z :=
  if PyStr.startswith "speaker_" speaker_label
  then option_map (fun n => (n + 1)%Z)
                  (PyStr.int (List.last (PyStr.split "_" speaker_label) ""))
  else None.

(** The speaker of the segment immediately before position [k]. *)
Definition preceding_speaker (segs : list Models.WhisperSegment) (k : nat)
  : option string :=
  match k with
  | O => None
  | S j => match nth_error segs j with
           | Some seg => Models.speaker seg
           | None => None
           end
  end.

(** The speakers of all the segments before position [k]. *)
Definition speakers_before (segs : list Models.WhisperSegment) (k : nat)
  : list string :=
  omap Models.speaker (firstn k segs).


(** The tracker after the first [k] segments. *)
Definition tracks (st : Api.PrefixState) (segs : list Models.WhisperSegment)
           (k : nat) : Prop :=
  Api.previous_speaker st = preceding_speaker segs k /\
  forall l, l ∈ Api.seen_speakers st <-> l ∈ speakers_before segs k.

Definition speaker_A : string := "speaker_SPEAKER_00".

(** A segment with the given text and speaker label. *)
Definition spoken (i : Z) (t lbl : string) : Models.WhisperSegment :=
  Models.set_speaker (Models.new i (inject_Z i) (inject_Z i + 1) t) lbl.

(** *** The shape of a rendered timestamp *)

Definition is_digit (c : ascii) : bool :=
  match PyStr.digit_of c with
  | Some _ => true
  | None => false
  end.

Fixpoint all_digits (s : string) : bool :=
  match s with
  | EmptyString => true
  | String c s' => is_digit c && all_digits s'
  end.

(** Two decimal digits. *)
Definition two_digits (s : string) : bool :=
  match s with
  | String a (String b EmptyString) => is_digit a && is_digit b
  | _ => false
  end.

(** Two digits, the decimal marker, three digits. *)
Definition seconds_field (marker : ascii) (s : string) : bool :=
  match s with
  | String a (String b (String k (String c (String d (String e EmptyString))))) =>
      is_digit a && is_digit b && Ascii.eqb k marker &&
      is_digit c && is_digit d && is_digit e
  | _ => false
  end.

(** What [f"{x:06.3f}"] prints for a non-negative [x] that rounds to
    [k] thousandths. *)
Definition thousandths_field (k : Z) : string :=
  PyStr.zero_pad 6
    (PyStr.str_of_int (k / 1000) +:+ "." +:+
     PyStr.zero_pad 3 (PyStr.str_of_int (k mod 1000))).

(** [pattern in s] *)
Fixpoint str_contains (pattern s : string) : bool :=
  String.prefix pattern s ||
  match s with
  | EmptyString => false
  | String _ s' => str_contains pattern s'
  end.

(** ** Example inputs *)

Definition empty_world : World := mkWorld ∅ ∅ [].

(** An ASR model that hears one segment [[1, 2]] in every chunk. *)
Definition example_asr (audio_path : string)
  : result (list Transcription.AsrHypothesis) :=
  Ok [Transcription.mkAsrHypothesis "hello"
        (Some [Transcription.mkStamp 1 2 "hello"])].

(** A loaded model, a 700 second recording at 16 kHz, 300 second chunks,
    no diarization token, and [ffmpeg] as given. *)
Definition example_env (ffmpeg : list string -> Z * string) : Env :=
  mkEnv (fun _ => Ok (16000 * 700, 16000)%Z)
        "/tmp/tmpchunks" "/tmp/tmpconv.wav" ffmpeg
        (Some example_asr) None "0123456789abcdef"
        (fun status_code detail => PyStr.str_of_int status_code +:+ ": " +:+ detail)
        "/tmp/parakeet" 300 true None.

(** Two turns, A = [[0, 3]] and B = [[3, 6]]. *)
Definition merge_example_turns : list Diarization.SpeakerSegment :=
  [ Diarization.mkSpeakerSegment 0 3 "speaker_A";
    Diarization.mkSpeakerSegment 3 6 "speaker_B" ].

(** The floats [0.1], [0.4], [0.5] and [0.8]. *)
Definition float_0_1 : Q := 3602879701896397 # 36028797018963968.
Definition float_0_4 : Q := 3602879701896397 # 9007199254740992.
Definition float_0_5 : Q := 1 # 2.
Definition float_0_8 : Q := 3602879701896397 # 4503599627370496.

(** Two turns, A = [[0.1, 0.4]] and B = [[0.5, 0.8]]: B is the longer one
    before rounding, and the two are equally long as floats. *)
Definition float_tie_turns : list Diarization.SpeakerSegment :=
  [ Diarization.mkSpeakerSegment float_0_1 float_0_4 "speaker_A";
    Diarization.mkSpeakerSegment float_0_5 float_0_8 "speaker_B" ].

(** A pipeline that hears two speakers, reporting the later turn first. *)
Definition example_pipeline (audio_path : string)
  : result (list (Q * Q * Diarization.label)) :=
  Ok [ (5%Q, 6%Q, inl "SPEAKER_01"); (0%Q, 4%Q, inl "00") ].

(** A pipeline whose labels are integers. *)
Definition example_pipeline_int (audio_path : string)
  : result (list (Q * Q * Diarization.label)) :=
  Ok [ (0%Q, 4%Q, inr 0%Z); (5%Q, 6%Q, inr 1%Z) ].

Definition ffmpeg_ok (cmd : list string) : Z * string := (0%Z, "").

(** ffmpeg fails on the window that starts at 300 seconds. *)
Definition ffmpeg_fails_second_window (cmd : list string) : Z * string :=
  if String.eqb (nth 2 cmd "") "-ss" && String.eqb (nth 3 cmd "") "300"
  then (1%Z, "Invalid data found when processing input") else (0%Z, "").

(** ffmpeg fails on the conversion (the command without [-ss]). *)
Definition ffmpeg_fails_conversion (cmd : list string) : Z * string :=
  if String.eqb (nth 2 cmd "") "-ss"
  then (0%Z, "") else (1%Z, "Invalid data found when processing input").

Definition example_request (response_format : string) : Api.Request :=
  Api.mkRequest ".mp3" None response_format false false true None.

(* ===================================================================== *)
(** * Properties *)
(* ===================================================================== *)

(** ** Float comparison *)

Lemma Qltb_true (a b : Q) : Qltb a b = true <-> (a < b)%Q.
Proof.
  unfold Qltb. rewrite Qlt_alt. destruct (a ?= b)%Q; split; congruence.
Qed.

Lemma Qltb_false (a b : Q) : Qltb a b = false <-> (b <= a)%Q.
Proof.
  split; intros H.
  - apply Qnot_lt_le. intros Hlt. apply Qltb_true in Hlt. congruence.
  - destruct (Qltb a b) eqn:E; [|reflexivity].
    apply Qltb_true in E. lra.
Qed.

Lemma py_max_Qmax (a b : Q) : (py_max a b == Qmax a b)%Q.
Proof.
  unfold py_max. destruct (Qltb a b) eqn:E.
  - apply Qltb_true in E. symmetry. apply Q.max_r. lra.
  - apply Qltb_false in E. symmetry. apply Q.max_l. lra.
Qed.

Lemma py_min_Qmin (a b : Q) : (py_min a b == Qmin a b)%Q.
Proof.
  unfold py_min. destruct (Qltb b a) eqn:E.
  - apply Qltb_true in E. symmetry. apply Q.min_r. lra.
  - apply Qltb_false in E. symmetry. apply Q.min_l. lra.
Qed.

(** ** Float subtraction *)

Lemma pow2_pos (e : Z) : (0 < 2 ^ e)%Q.
Proof. apply Qpower_0_lt. reflexivity. Qed.

Lemma pow2_Z (n : Z) : (0 <= n)%Z -> (inject_Z (2 ^ n) == 2 ^ n)%Q.
Proof. intros H. apply (Zpower_Qpower 2 n H). Qed.

Lemma Q_as_fraction (x : Q) : (x == inject_Z (Qnum x) / inject_Z (Zpos (Qden x)))%Q.
Proof. destruct x as [n d]. cbn [Qnum Qden]. rewrite <- Qmake_Qdiv. reflexivity. Qed.

Lemma ilog2_le (x : Q) : (0 < x)%Q -> (2 ^ Float.ilog2 x <= x)%Q.
Proof.
  intros Hx. unfold Float.ilog2.
  set (a := Z.log2 (Qnum x)). set (b := Z.log2 (Zpos (Qden x))).
  destruct (Qle_bool (2 ^ (a - b)) x) eqn:E; [apply Qle_bool_iff, E|].
  assert (Hn : (0 < Qnum x)%Z) by (destruct x as [n d]; unfold Qlt in Hx; cbn in *; lia).
  destruct (Z.log2_spec (Qnum x) Hn) as [Ha _]. fold a in Ha.
  destruct (Z.log2_spec (Zpos (Qden x)) eq_refl) as [_ Hb]. fold b in Hb.
  assert (Ha0 : (0 <= a)%Z) by apply Z.log2_nonneg.
  assert (Hb0 : (0 <= b)%Z) by apply Z.log2_nonneg.
  replace (a - b - 1)%Z with (a - (b + 1))%Z by lia.
  rewrite Qpower_minus by discriminate.
  rewrite <- (pow2_Z a Ha0), <- (pow2_Z (b + 1)) by lia.
  pose proof (Q_as_fraction x) as Hfrac.
  assert (Hd : (0 < inject_Z (Zpos (Qden x)))%Q) by reflexivity.
  assert (Hp : (0 < inject_Z (2 ^ (b + 1)))%Q).
  { rewrite pow2_Z by lia. apply pow2_pos. }
  assert (Hle1 : (inject_Z (2 ^ a) <= inject_Z (Qnum x))%Q) by (rewrite <- Zle_Qle; exact Ha).
  assert (Hle2 : (inject_Z (Zpos (Qden x)) <= inject_Z (2 ^ (b + 1)))%Q)
    by (rewrite <- Zle_Qle; replace (Z.succ b) with (b + 1)%Z in Hb by lia; lia).
  assert (H0 : (0 <= inject_Z (2 ^ a))%Q).
  { rewrite pow2_Z by lia. apply Qlt_le_weak, pow2_pos. }
  set (A := inject_Z (2 ^ a)) in *. set (B := inject_Z (2 ^ (b + 1))) in *.
  set (N := inject_Z (Qnum x)) in *. set (Dn := inject_Z (Zpos (Qden x))) in *.
  rewrite Hfrac.
  apply Qle_shift_div_l; [exact Hd|].
  assert (E1 : (A / B * Dn == A * (Dn / B))%Q) by (field; lra).
  rewrite E1.
  assert (Hr : (Dn / B <= 1)%Q) by (apply Qle_shift_div_r; lra).
  assert ((A * (Dn / B) <= A * 1)%Q) by nra.
  lra.
Qed.

Lemma nearest_even_ge_floor (x : Q) : (Qfloor x <= Float.nearest_even x)%Z.
Proof.
  unfold Float.nearest_even. destruct (_ ?= _)%Q; [destruct (Z.even _)| |]; lia.
Qed.

Lemma round_pos_pos (x : Q) : (0 < x)%Q -> (0 < Float.round_pos x)%Q.
Proof.
  intros Hx. unfold Float.round_pos.
  set (e := (Float.ilog2 x - 52)%Z).
  pose proof (pow2_pos e) as He.
  assert (Hle : (2 ^ e <= x)%Q).
  { apply Qle_trans with (2 ^ Float.ilog2 x)%Q; [|apply ilog2_le, Hx].
    apply Qpower_le_compat_l; [unfold e; lia | discriminate]. }
  assert (H1 : (1 <= x / 2 ^ e)%Q) by (apply Qle_shift_div_l; lra).
  assert (Hf : (1 <= Qfloor (x / 2 ^ e))%Z).
  { change 1%Z with (Qfloor 1). apply Qfloor_resp_le, H1. }
  pose proof (nearest_even_ge_floor (x / 2 ^ e)) as Hn.
  assert (Hq : (1 <= inject_Z (Float.nearest_even (x / 2 ^ e)))%Q).
  { change 1%Q with (inject_Z 1). rewrite <- Zle_Qle. lia. }
  nra.
Qed.

Lemma infinity_pos : (0 < Float.infinity)%Q.
Proof. apply pow2_pos. Qed.

Lemma round_pos_sign (x : Q) : (0 < x)%Q -> (0 < Float.round x)%Q.
Proof.
  intros Hx. unfold Float.round.
  apply Qgt_alt in Hx. rewrite Hx. cbn zeta.
  apply Qgt_alt in Hx.
  destruct (Qle_bool _ _); [apply infinity_pos | apply round_pos_pos, Hx].
Qed.

Lemma round_nonpos_sign (x : Q) : (x <= 0)%Q -> (Float.round x <= 0)%Q.
Proof.
  intros Hx. unfold Float.round.
  destruct (x ?= 0)%Q eqn:E.
  - lra.
  - apply Qlt_alt in E.
    assert (H : (0 < Float.round_pos (- x))%Q) by (apply round_pos_pos; lra).
    pose proof infinity_pos.
    cbn zeta. destruct (Qle_bool _ _); lra.
  - apply Qgt_alt in E. lra.
Qed.

Lemma ilog2_lt (x : Q) : (0 < x)%Q -> (x < 2 ^ (Float.ilog2 x + 1))%Q.
Proof.
  intros Hx. unfold Float.ilog2.
  set (a := Z.log2 (Qnum x)). set (b := Z.log2 (Zpos (Qden x))).
  destruct (Qle_bool (2 ^ (a - b)) x) eqn:E.
  - assert (Hn : (0 < Qnum x)%Z) by (destruct x as [n d]; unfold Qlt in Hx; cbn in *; lia).
    destruct (Z.log2_spec (Qnum x) Hn) as [_ Ha]. fold a in Ha.
    destruct (Z.log2_spec (Zpos (Qden x)) eq_refl) as [Hb _]. fold b in Hb.
    assert (Ha0 : (0 <= a)%Z) by apply Z.log2_nonneg.
    assert (Hb0 : (0 <= b)%Z) by apply Z.log2_nonneg.
    replace (a - b + 1)%Z with ((a + 1) - b)%Z by lia.
    rewrite Qpower_minus by discriminate.
    rewrite <- (pow2_Z (a + 1)), <- (pow2_Z b) by lia.
    pose proof (Q_as_fraction x) as Hfrac.
    assert (Hd : (0 < inject_Z (Zpos (Qden x)))%Q) by reflexivity.
    assert (Hp : (0 < inject_Z (2 ^ b))%Q).
    { rewrite pow2_Z by lia. apply pow2_pos. }
    assert (Hlt1 : (inject_Z (Qnum x) < inject_Z (2 ^ (a + 1)))%Q)
      by (rewrite <- Zlt_Qlt; replace (Z.succ a) with (a + 1)%Z in Ha by lia; exact Ha).
    assert (Hle2 : (inject_Z (2 ^ b) <= inject_Z (Zpos (Qden x)))%Q)
      by (rewrite <- Zle_Qle; exact Hb).
    assert (HN : (0 < inject_Z (Qnum x))%Q)
      by (change 0%Q with (inject_Z 0); rewrite <- Zlt_Qlt; exact Hn).
    set (A := inject_Z (2 ^ (a + 1))) in *. set (B := inject_Z (2 ^ b)) in *.
    set (N := inject_Z (Qnum x)) in *. set (Dn := inject_Z (Zpos (Qden x))) in *.
    rewrite Hfrac.
    apply Qlt_shift_div_r; [exact Hd|].
    assert (E1 : (A / B * Dn == A * (Dn / B))%Q) by (field; lra).
    rewrite E1.
    assert (Hr : (1 <= Dn / B)%Q) by (apply Qle_shift_div_l; lra).
    assert ((A * 1 <= A * (Dn / B))%Q) by nra.
    lra.
  - replace (a - b - 1 + 1)%Z with (a - b)%Z by lia.
    apply Qnot_le_lt. intros H. apply Qle_bool_iff in H. congruence.
Qed.

Lemma nearest_even_close (y : Q) :
  (inject_Z (Float.nearest_even y) - y <= 1 # 2)%Q /\
  (y - inject_Z (Float.nearest_even y) <= 1 # 2)%Q.
Proof.
  unfold Float.nearest_even.
  pose proof (Qfloor_le y) as Hlo. pose proof (Qlt_floor y) as Hhi.
  rewrite inject_Z_plus in Hhi. change (inject_Z 1) with 1%Q in Hhi.
  destruct (y - inject_Z (Qfloor y) ?= 1 # 2)%Q eqn:E.
  - apply Qeq_alt in E. destruct (Z.even _).
    + split; lra.
    + rewrite inject_Z_plus. change (inject_Z 1) with 1%Q. split; lra.
  - apply Qlt_alt in E. split; lra.
  - apply Qgt_alt in E. rewrite inject_Z_plus. change (inject_Z 1) with 1%Q.
    split; lra.
Qed.

(** The rounded value of a positive [x] is [m * 2 ^ e] with a significand
    [m] of 53 bits ([2 ^ 53] itself when the rounding carries), at most
    half a unit of the last place away from [x]. *)
Lemma round_pos_spec (x : Q) :
  (0 < x)%Q ->
  let e := (Float.ilog2 x - 52)%Z in
  let m := Float.nearest_even (x / 2 ^ e) in
  (Float.round_pos x == inject_Z m * 2 ^ e)%Q /\
  (2 ^ 52 <= m <= 2 ^ 53)%Z /\
  (Qabs (Float.round_pos x - x) <= (1 # 2) * 2 ^ e)%Q.
Proof.
  intros Hx e m. split; [reflexivity|].
  pose proof (pow2_pos e) as He.
  assert (E52 : (2 ^ Float.ilog2 x == 2 ^ 52 * 2 ^ e)%Q).
  { unfold e. rewrite <- Qpower_plus by discriminate. apply Qpower_comp; [reflexivity|lia]. }
  assert (E53 : (2 ^ (Float.ilog2 x + 1) == 2 ^ 53 * 2 ^ e)%Q).
  { unfold e. rewrite <- Qpower_plus by discriminate. apply Qpower_comp; [reflexivity|lia]. }
  pose proof (ilog2_le x Hx) as Hlo. pose proof (ilog2_lt x Hx) as Hhi.
  rewrite E52 in Hlo. rewrite E53 in Hhi.
  set (y := (x / 2 ^ e)%Q) in *.
  assert (Hy : (x == y * 2 ^ e)%Q) by (unfold y; field; lra).
  assert (Hy1 : (2 ^ 52 <= y)%Q).
  { unfold y. apply Qle_shift_div_l; [exact He | exact Hlo]. }
  assert (Hy2 : (y < 2 ^ 53)%Q).
  { unfold y. apply Qlt_shift_div_r; [exact He | exact Hhi]. }
  assert (Hf1 : (2 ^ 52 <= Qfloor y)%Z).
  { change (2 ^ 52)%Z with (Qfloor (2 ^ 52)). apply Qfloor_resp_le, Hy1. }
  assert (Hf2 : (Qfloor y < 2 ^ 53)%Z).
  { apply Z.lt_nge. intros Hge.
    assert ((inject_Z (2 ^ 53) <= inject_Z (Qfloor y))%Q) by (rewrite <- Zle_Qle; exact Hge).
    pose proof (Qfloor_le y). change (inject_Z (2 ^ 53)) with (2 ^ 53)%Q in *. lra. }
  split.
  - pose proof (nearest_even_ge_floor y). fold m in H.
    assert (m <= Qfloor y + 1)%Z.
    { unfold m, Float.nearest_even. destruct (_ ?= _)%Q; [destruct (Z.even _)| |]; lia. }
    lia.
  - unfold Float.round_pos. fold e. fold y. fold m.
    destruct (nearest_even_close y) as [H1 H2]. fold m in H1, H2.
    apply Qabs_case; intros _; rewrite Hy; nra.
Qed.

(** The floats [0.4 - 0.1] and [0.8 - 0.5] are the same float,
    [0.30000000000000004], although the exact differences are not equal. *)
Example float_sub_tie :
  (Float.sub float_0_4 float_0_1 == Float.sub float_0_8 float_0_5)%Q /\
  (Float.sub float_0_4 float_0_1 == 1351079888211149 # 4503599627370496)%Q /\
  (float_0_4 - float_0_1 < float_0_8 - float_0_5)%Q.
Proof. vm_compute. repeat split; reflexivity. Qed.

Lemma py_max_eq (a b : Q) : py_max a b = Qmax a b.
Proof.
  unfold py_max, Qltb, Qmax, GenericMinMax.gmax.
  destruct (a ?= b)%Q; reflexivity.
Qed.

Lemma py_min_eq (a b : Q) : py_min a b = Qmin a b.
Proof.
  unfold py_min, Qltb, Qmin, GenericMinMax.gmin.
  rewrite <- (Qcompare_antisym a b).
  destruct (a ?= b)%Q; reflexivity.
Qed.

(** ** Overlap voting *)

Section OverlapVoting.
Import Diarization.

Lemma entry_some s t x :
  entry s t = Some x ->
  fst x = speaker t /\ (snd x == overlap s t)%Q /\ (0 < overlap s t)%Q.
Proof.
  unfold entry, overlap. destruct (Qltb _ _) eqn:E; [|discriminate].
  intros [= <-]. apply Qltb_true in E. cbn [fst snd].
  rewrite py_max_eq, py_min_eq in *.
  set (a := Qmin _ _) in *. set (b := Qmax _ _) in *.
  assert (Hd : (0 < Float.sub a b)%Q) by (apply round_pos_sign; lra).
  assert (Hm : (Qmax 0 (Float.sub a b) == Float.sub a b)%Q) by (apply Q.max_r; lra).
  split; [reflexivity|]. split; [symmetry; exact Hm | rewrite Hm; exact Hd].
Qed.

Lemma entry_none s t : entry s t = None -> (overlap s t == 0)%Q.
Proof.
  unfold entry, overlap. destruct (Qltb _ _) eqn:E; [discriminate|].
  intros _. apply Qltb_false in E.
  rewrite py_max_eq, py_min_eq in E.
  apply Q.max_l. apply round_nonpos_sign. lra.
Qed.

Lemma overlap_nonneg s t : (0 <= overlap s t)%Q.
Proof. unfold overlap. apply Q.le_max_l. Qed.

Lemma find_overlapping_cons s t turns :
  find_overlapping (Models.start s) (Models.end_ s) (t :: turns) =
  match entry s t with
  | Some x => x :: find_overlapping (Models.start s) (Models.end_ s) turns
  | None => find_overlapping (Models.start s) (Models.end_ s) turns
  end.
Proof. unfold entry. cbn. destruct (Qltb _ _); reflexivity. Qed.

(** An entry of [overlapping] comes from a turn, and the entries before
    and after it come from the turns before and after that turn. *)
Lemma find_overlapping_split s turns : forall l1 x l2,
  find_overlapping (Models.start s) (Models.end_ s) turns = l1 ++ x :: l2 ->
  exists t1 t t2,
    turns = t1 ++ t :: t2 /\ entry s t = Some x /\
    find_overlapping (Models.start s) (Models.end_ s) t1 = l1 /\
    find_overlapping (Models.start s) (Models.end_ s) t2 = l2.
Proof.
  induction turns as [|t turns IH]; intros l1 x l2 H.
  - destruct l1; discriminate.
  - rewrite find_overlapping_cons in H. destruct (entry s t) as [y|] eqn:E.
    + destruct l1 as [|z l1]; cbn in H.
      * injection H as -> <-. exists [], t, turns. auto.
      * injection H as -> H. apply IH in H as (t1 & t' & t2 & -> & He & H1 & H2).
        exists (t :: t1), t', t2. rewrite find_overlapping_cons, E, H1. auto.
    + apply IH in H as (t1 & t' & t2 & -> & He & H1 & H2).
      exists (t :: t1), t', t2. rewrite find_overlapping_cons, E, H1. auto.
Qed.

Lemma find_overlapping_durations s turns (P : Q -> Prop) :
  (forall a b, (a == b)%Q -> P a -> P b) ->
  Forall (fun x => P (snd x))
         (find_overlapping (Models.start s) (Models.end_ s) turns) ->
  forall t, In t turns -> (0 < overlap s t)%Q -> P (overlap s t).
Proof.
  intros HP. induction turns as [|t0 turns IH]; intros HF t Hin Hpos.
  - destruct Hin.
  - rewrite find_overlapping_cons in HF. destruct Hin as [-> | Hin].
    + destruct (entry s t) as [x|] eqn:E.
      * apply entry_some in E as (_ & Hd & _). inversion HF; subst.
        eapply HP; eauto.
      * apply entry_none in E. lra.
    + destruct (entry s t0); [inversion HF; subst|]; auto.
Qed.

Lemma find_overlapping_nil s turns :
  find_overlapping (Models.start s) (Models.end_ s) turns = [] ->
  forall t, In t turns -> (overlap s t == 0)%Q.
Proof.
  induction turns as [|t0 turns IH]; intros H t Hin; [destruct Hin|].
  rewrite find_overlapping_cons in H.
  destruct (entry s t0) eqn:E; [discriminate|].
  destruct Hin as [-> | Hin]; [apply entry_none, E | auto].
Qed.

(** The head of the stably sorted list is the first entry of largest
    duration. *)
Lemma sort_nil l : sort_by_duration_desc l = [] -> l = [].
Proof.
  destruct l as [|x l]; [reflexivity|]. cbn.
  destruct (sort_by_duration_desc l) as [|y r]; cbn; [discriminate|].
  destruct (Qltb _ _); discriminate.
Qed.

Lemma sort_head l : forall x r,
  sort_by_duration_desc l = x :: r ->
  exists l1 l2, l = l1 ++ x :: l2 /\
    Forall (fun y => (snd y < snd x)%Q) l1 /\
    Forall (fun y => (snd y <= snd x)%Q) l2.
Proof.
  induction l as [|a l IH]; intros x r H; [discriminate|].
  cbn in H. destruct (sort_by_duration_desc l) as [|y r'] eqn:E.
  - apply sort_nil in E as ->. cbn in H. injection H as <- <-.
    exists [], []. auto.
  - destruct (IH y r' eq_refl) as (l1 & l2 & -> & H1 & H2).
    cbn in H. destruct (Qltb (snd a) (snd y)) eqn:Hlt.
    + injection H as <- <-. apply Qltb_true in Hlt.
      exists (a :: l1), l2. auto.
    + injection H as <- <-. apply Qltb_false in Hlt.
      exists [], (l1 ++ y :: l2). repeat split; [constructor|].
      apply Forall_app. split; [|constructor].
      * eapply Forall_impl; [exact H1|]. cbn. intros; lra.
      * exact Hlt.
      * eapply Forall_impl; [exact H2|]. cbn. intros; lra.
Qed.

End OverlapVoting.

Section MergeWithTranscription.
Import Diarization.

Lemma dominant_speaker_spec turns s :
  StronglySorted turn_le turns ->
  ((forall t, In t turns -> (overlap s t == 0)%Q) /\
   dominant_speaker turns s = "unknown")
  \/
  (exists t, In t turns /\ dominant_speaker turns s = speaker t /\
     (0 < overlap s t)%Q /\
     (forall t', In t' turns -> (overlap s t' <= overlap s t)%Q) /\
     (forall t', In t' turns -> (overlap s t' == overlap s t)%Q ->
                 (start t <= start t')%Q)).
Proof.
  intros Hsorted. unfold dominant_speaker.
  destruct (sort_by_duration_desc _) as [|x r] eqn:Hsort.
  - left. split; [|reflexivity]. apply find_overlapping_nil, sort_nil, Hsort.
  - right. apply sort_head in Hsort as (l1 & l2 & Hl & Hbefore & Hafter).
    apply find_overlapping_split in Hl as (t1 & t & t2 & -> & He & H1 & H2).
    apply entry_some in He as (Hlbl & Hdur & Hpos).
    subst l1 l2.
    assert (Hlt : forall t', In t' t1 -> (overlap s t' < overlap s t)%Q).
    { intros t' Hin. destruct (Qlt_le_dec 0 (overlap s t')) as [Hp|Hz]; [|lra].
      rewrite <- Hdur.
      apply (find_overlapping_durations s t1 (fun q => (q < snd x)%Q)); auto.
      intros a b Hab Ha. lra. }
    assert (Hle : forall t', In t' t2 -> (overlap s t' <= overlap s t)%Q).
    { intros t' Hin. destruct (Qlt_le_dec 0 (overlap s t')) as [Hp|Hz]; [|lra].
      rewrite <- Hdur.
      apply (find_overlapping_durations s t2 (fun q => (q <= snd x)%Q)); auto.
      intros a b Hab Ha. lra. }
    exists t. split; [apply in_elt|]. split; [exact Hlbl|]. split; [exact Hpos|].
    split.
    + intros t' Hin. apply in_app_or in Hin as [Hin | [<- | Hin]].
      * apply Qlt_le_weak, Hlt, Hin.
      * lra.
      * apply Hle, Hin.
    + intros t' Hin Heq. apply in_app_or in Hin as [Hin | [<- | Hin]].
      * apply Hlt in Hin. lra.
      * lra.
      * apply StronglySorted_app_1_r in Hsorted.
        apply StronglySorted_inv in Hsorted as [_ Hall].
        rewrite Forall_forall in Hall. apply Hall. 
        apply list_elem_of_In, Hin.
Qed.

Lemma turn_le_trans : Transitive turn_le.
Proof. intros a b c. unfold turn_le. intros; lra. Qed.

End MergeWithTranscription.

(** C1. With a non-empty turn list sorted by start time, the merge keeps
    the segments in place and changes nothing but the speaker of each one.
    The speaker of the merged segment is the label of the turn whose
    overlap [max(0, min(s.end, t.end) - max(s.start, t.start))] with the
    segment is the largest among the turns of strictly positive overlap,
    the earliest such turn on ties; a segment that no turn overlaps has
    the speaker ["unknown"].  The overlap is the float the code computes:
    the subtraction rounds. *)
Theorem merge_assigns_dominant_speaker
  (d : Diarization.DiarizationResult) (segs : list Models.WhisperSegment) :
  Diarization.segments d <> [] ->
  Sorted Diarization.turn_le (Diarization.segments d) ->
  let turns := Diarization.segments d in
  let merged := Diarization.merge_with_transcription d segs in
  length merged = length segs /\
  forall i s, nth_error segs i = Some s ->
    exists s' lbl,
      nth_error merged i = Some s' /\
      Models.speaker s' = Some lbl /\
      Models.id s' = Models.id s /\
      Models.seek s' = Models.seek s /\
      Models.start s' = Models.start s /\
      Models.end_ s' = Models.end_ s /\
      Models.text s' = Models.text s /\
      Models.tokens s' = Models.tokens s /\
      Models.temperature s' = Models.temperature s /\
      Models.avg_logprob s' = Models.avg_logprob s /\
      Models.compression_ratio s' = Models.compression_ratio s /\
      Models.no_speech_prob s' = Models.no_speech_prob s /\
      (((forall t, In t turns -> (Diarization.overlap s t == 0)%Q) /\
        lbl = "unknown")
       \/
       (exists t, In t turns /\ lbl = Diarization.speaker t /\
          (0 < Diarization.overlap s t)%Q /\
          (forall t', In t' turns ->
             (Diarization.overlap s t' <= Diarization.overlap s t)%Q) /\
          (forall t', In t' turns ->
             (Diarization.overlap s t' == Diarization.overlap s t)%Q ->
             (Diarization.start t <= Diarization.start t')%Q))).
Proof.
  intros Hne Hsorted turns merged. subst turns merged.
  unfold Diarization.merge_with_transcription.
  destruct (Diarization.segments d) as [|t0 ts] eqn:Hturns; [congruence|].
  split; [apply length_map|].
  intros i s Hi.
  exists (Models.set_speaker s (Diarization.dominant_speaker (t0 :: ts) s)),
         (Diarization.dominant_speaker (t0 :: ts) s).
  split; [rewrite nth_error_map, Hi; reflexivity|].
  do 11 (split; [reflexivity|]).
  apply dominant_speaker_spec.
  apply Sorted_StronglySorted; [apply turn_le_trans | exact Hsorted].
Qed.

(** The worked example: segment [[2.0, 5.0]] against the turns
    A = [[0, 3]] and B = [[3, 6]] is given to B (overlap 2.0 against 1.0). *)
Example merge_example :
  map Models.speaker
      (Diarization.merge_with_transcription
         (Diarization.mkDiarizationResult merge_example_turns 2)
         [Models.new 0 2 5 "hello"; Models.new 1 7 8 "late"])
  = [Some "speaker_B"; Some "unknown"].
Proof. vm_compute. reflexivity. Qed.

(** A tie of floats: against the turns A = [[0.1, 0.4]] and
    B = [[0.5, 0.8]] the segment [[0, 100]] is given to A, the earlier of
    two turns that overlap it for the same float [0.30000000000000004]. *)
Example merge_float_tie :
  map Models.speaker
      (Diarization.merge_with_transcription
         (Diarization.mkDiarizationResult float_tie_turns 2)
         [Models.new 0 0 100 "hello"])
  = [Some "speaker_A"].
Proof. vm_compute. reflexivity. Qed.

Lemma float_tie_sorted : Sorted Diarization.turn_le float_tie_turns.
Proof.
  repeat constructor; unfold Diarization.turn_le, Qle; cbn; lia.
Defined.

Lemma merge_assigns_dominant_speaker_witness :
  let d := Diarization.mkDiarizationResult float_tie_turns 2 in
  let segs := [Models.new 0 0 100 "hello"] in
  Diarization.segments d <> [] /\
  Sorted Diarization.turn_le (Diarization.segments d) /\
  exists s',
    nth_error (Diarization.merge_with_transcription d segs) 0 = Some s' /\
    Models.speaker s' = Some "speaker_A" /\
    Models.text s' = "hello".
Proof.
  intros d segs.
  assert (Hne : Diarization.segments d <> []) by discriminate.
  split; [exact Hne|]. split; [exact float_tie_sorted|].
  destruct (merge_assigns_dominant_speaker d segs Hne float_tie_sorted)
    as [_ Hseg].
  destruct (Hseg 0%nat (Models.new 0 0 100 "hello") eq_refl)
    as (s' & lbl & Hnth & Hspk & _ & _ & _ & _ & Htext & _ & _ & _ & _ & _ & Hlbl).
  exists s'. split; [exact Hnth|]. split; [|exact Htext].
  rewrite Hspk. f_equal.
  destruct Hlbl as [[Hall _] | (t & Hin & -> & _ & _ & Htie)].
  - specialize (Hall _ (or_introl eq_refl)). vm_compute in Hall. discriminate Hall.
  - destruct Hin as [<- | [<- | []]]; [reflexivity|].
    assert (Hle : (float_0_5 <= float_0_1)%Q).
    { apply (Htie _ (or_introl eq_refl)). vm_compute. reflexivity. }
    vm_compute in Hle. exfalso. apply Hle. reflexivity.
Defined.

(** The turn list [Diarizer.diarize] hands to the merge is sorted by start
    time. *)
Lemma insert_by_start_hd a x l :
  HdRel Diarization.turn_le a l ->
  Diarization.turn_le a x ->
  HdRel Diarization.turn_le a (Diarization.insert_by_start x l).
Proof.
  intros Hl Hx. destruct l as [|y l]; cbn; [constructor; exact Hx|].
  destruct (Qltb _ _); constructor; [inversion Hl; assumption | exact Hx].
Qed.

Lemma insert_by_start_sorted x l :
  Sorted Diarization.turn_le l ->
  Sorted Diarization.turn_le (Diarization.insert_by_start x l).
Proof.
  induction 1 as [|y l Hl IH Hy]; cbn; [repeat constructor|].
  destruct (Qltb (Diarization.start y) (Diarization.start x)) eqn:E.
  - constructor; [exact IH|]. apply insert_by_start_hd; [exact Hy|].
    apply Qltb_true in E. unfold Diarization.turn_le. lra.
  - constructor; [constructor; assumption|]. constructor.
    apply Qltb_false in E. exact E.
Qed.

Lemma sort_by_start_sorted l :
  Sorted Diarization.turn_le (Diarization.sort_by_start l).
Proof.
  induction l as [|x l IH]; cbn; [constructor | apply insert_by_start_sorted, IH].
Qed.

(** X1. Whatever the pipeline yields, the turn list of [Diarizer.diarize]
    is in non-decreasing order of start time. *)
Lemma diarize_sorted pipeline audio_path :
  Sorted Diarization.turn_le
         (Diarization.segments (Diarization.diarize pipeline audio_path)).
Proof.
  unfold Diarization.diarize. destruct pipeline as [run|]; [|constructor].
  destruct (run audio_path) as [tracks|e]; [|constructor].
  apply sort_by_start_sorted.
Qed.

(** ** Offset reconciliation *)

Section OffsetReconciliation.
Variable asr : string -> result (list Transcription.AsrHypothesis).
Variable chunk_duration : Z.

Lemma process_chunks_segments audio_chunks : forall i all_text all_segments,
  snd (Api.process_chunks asr chunk_duration i audio_chunks all_text all_segments)
  = all_segments ++ concat (contributions asr chunk_duration i audio_chunks).
Proof.
  induction audio_chunks as [|chunk_path rest IH]; intros i all_text all_segments.
  - cbn. symmetry. apply app_nil_r.
  - cbn [Api.process_chunks contributions concat].
    rewrite IH, <- app_assoc. reflexivity.
Qed.




End OffsetReconciliation.


(** ** Ordering of the reconciled segments *)

Section Ordering.
Variable asr : string -> result (list Transcription.AsrHypothesis).
Variable chunk_duration : Z.

Let C : Q := inject_Z chunk_duration.

Let well_timed := well_timed asr chunk_duration.

Lemma Qle_transitive : Transitive Qle.
Proof. intros a b c. apply Qle_trans. Qed.

Lemma offset_of_index (i : nat) :
  (inject_Z (Z.of_nat i * chunk_duration) == inject_Z (Z.of_nat i) * C)%Q.
Proof. unfold C. rewrite inject_Z_mult. reflexivity. Qed.

Lemma offset_of_succ (i : nat) :
  (inject_Z (Z.of_nat (S i)) * C == inject_Z (Z.of_nat i) * C + C)%Q.
Proof.
  rewrite Nat2Z.inj_succ. unfold Z.succ. rewrite inject_Z_plus.
  change (inject_Z 1) with 1%Q. ring.
Qed.

(** The start times of what chunk [i] contributes. *)
Lemma contribution_starts i chunk_path :
  exists o, (o == inject_Z (Z.of_nat i) * C)%Q /\
    map Models.start (contribution asr chunk_duration i chunk_path)
    = map (fun q => (q + o)%Q) (map Models.start (raw_segments asr chunk_path))
    \/ (i = 0%nat /\
        map Models.start (contribution asr chunk_duration i chunk_path)
        = map Models.start (raw_segments asr chunk_path)).
Proof.
  exists (inject_Z (Z.of_nat i * chunk_duration)).
  unfold contribution. destruct i as [|i].
  - right. split; reflexivity.
  - left. split; [apply offset_of_index|].
    replace (0 <? S i)%nat with true by reflexivity.
    rewrite !map_map. reflexivity.
Qed.

Lemma shift_sorted (o : Q) (l : list Q) :
  StronglySorted Qle l -> StronglySorted Qle (map (fun q => (q + o)%Q) l).
Proof.
  induction 1 as [|a l Hl IH Ha]; cbn; constructor; [exact IH|].
  apply List.Forall_forall. intros y Hy. apply in_map_iff in Hy as (x & <- & Hx).
  rewrite List.Forall_forall in Ha. specialize (Ha x Hx). lra.
Qed.

Lemma contribution_sorted i chunk_path :
  well_timed chunk_path ->
  StronglySorted Qle (map Models.start (contribution asr chunk_duration i chunk_path)).
Proof.
  intros [Hs _].
  apply Sorted_StronglySorted in Hs; [|apply Qle_transitive].
  destruct (contribution_starts i chunk_path) as (o & [[_ ->] | [_ ->]]).
  - apply shift_sorted, Hs.
  - exact Hs.
Qed.

Lemma contribution_bounds i chunk_path :
  well_timed chunk_path ->
  forall q, In q (map Models.start (contribution asr chunk_duration i chunk_path)) ->
    (inject_Z (Z.of_nat i) * C <= q)%Q /\ (q <= inject_Z (Z.of_nat i) * C + C)%Q
    /\ (0 <= C)%Q.
Proof.
  intros [_ Hb] q Hq. rewrite List.Forall_forall in Hb.
  destruct (contribution_starts i chunk_path) as (o & [[Ho E] | [-> E]]);
    rewrite E in Hq.
  - apply in_map_iff in Hq as (x & <- & Hx).
    apply in_map_iff in Hx as (s & <- & Hs).
    destruct (Hb s Hs). unfold C in *. repeat split; lra.
  - apply in_map_iff in Hq as (s & <- & Hs).
    destruct (Hb s Hs). change (inject_Z (Z.of_nat 0)) with 0%Q.
    unfold C in *. repeat split; lra.
Qed.

Lemma contributions_sorted audio_chunks : forall i,
  (forall chunk_path, In chunk_path audio_chunks -> well_timed chunk_path) ->
  let starts :=
    map Models.start (concat (contributions asr chunk_duration i audio_chunks)) in
  StronglySorted Qle starts /\
  forall q, In q starts -> (inject_Z (Z.of_nat i) * C <= q)%Q /\ (0 <= C)%Q.
Proof.
  induction audio_chunks as [|p rest IH]; intros i Hwt; cbn zeta.
  - cbn. split; [constructor | intros q []].
  - cbn [contributions concat]. rewrite map_app.
    assert (Hp : well_timed p) by (apply Hwt; left; reflexivity).
    destruct (IH (S i)) as [IHs IHb]; [intros; apply Hwt; right; assumption|].
    split.
    + apply StronglySorted_app_2; [|apply contribution_sorted, Hp|exact IHs].
      intros x1 x2 H1 H2.
      apply list_elem_of_In in H1, H2.
      apply (contribution_bounds i p Hp) in H1. apply IHb in H2.
      rewrite offset_of_succ in H2. lra.
    + intros q Hq. apply in_app_or in Hq as [Hq | Hq].
      * apply (contribution_bounds i p Hp) in Hq. lra.
      * apply IHb in Hq. rewrite offset_of_succ in Hq. lra.
Qed.

End Ordering.

(** C6. When the raw segments of every chunk have non-decreasing start
    times inside [[0, chunk_duration]], the start times of the file-level
    segment list are non-decreasing. *)
Theorem reconciled_segments_ordered
  (asr : string -> result (list Transcription.AsrHypothesis))
  (chunk_duration : Z) (audio_chunks : list string) :
  (forall chunk_path, In chunk_path audio_chunks ->
     Sorted Qle (map Models.start (raw_segments asr chunk_path)) /\
     Forall (fun s => (0 <= Models.start s)%Q /\
                      (Models.start s <= inject_Z chunk_duration)%Q)
            (raw_segments asr chunk_path)) ->
  Sorted Qle
    (map Models.start
         (snd (Api.process_chunks asr chunk_duration 0 audio_chunks [] []))).
Proof.
  intros H. rewrite process_chunks_segments. cbn [app].
  apply StronglySorted_Sorted.
  apply (contributions_sorted asr chunk_duration audio_chunks 0 H).
Qed.

Lemma reconciled_segments_ordered_witness :
  Sorted Qle
    (map Models.start
         (snd (Api.process_chunks example_asr 300 0
                 ["/tmp/tmpchunks/chunk_0.wav"; "/tmp/tmpchunks/chunk_1.wav"]
                 [] []))).
Proof.
  apply reconciled_segments_ordered. intros chunk_path _. split.
  - repeat constructor.
  - repeat constructor; unfold Qle; cbn; lia.
Defined.

(** ** Chunk segmentation *)

Section Chunking.
Variable env : Env.
Variable audio_path : string.
Variable chunk_duration : Z.

Lemma split_loop_success indices : forall chunk_paths w,
  (forall i, In i indices ->
     fst (ffmpeg env (window_cmd env audio_path chunk_duration i)) = 0%Z) ->
  let r := Audio.split_loop env audio_path chunk_duration (mkdtemp env)
                            indices chunk_paths w in
  fst r = Ok (chunk_paths ++ map (Audio.chunk_path (mkdtemp env)) indices) /\
  ffmpeg_calls (snd r)
  = ffmpeg_calls w ++ map (window_cmd env audio_path chunk_duration) indices.
Proof.
  induction indices as [|i rest IH]; intros chunk_paths w Hok; cbn zeta.
  - cbn. rewrite !app_nil_r. split; reflexivity.
  - cbn [Audio.split_loop]. unfold mbind, M_bind, subprocess_run.
    fold (window_cmd env audio_path chunk_duration i).
    rewrite (Hok i (or_introl eq_refl)). cbn [fst snd Z.eqb].
    match goal with
    | |- context [Audio.split_loop _ _ _ _ rest ?p ?w'] =>
        destruct (IH p w') as [IH1 IH2]; [intros; apply Hok; right; assumption|]
    end.
    cbn zeta in IH1, IH2. rewrite IH1, IH2. cbn [ffmpeg_calls map].
    rewrite <- !app_assoc. split; reflexivity.
Qed.

(** When every window succeeds, the files on disk only grow, every chunk
    file is among them, and no directory is made by the loop. *)
Lemma split_loop_files indices : forall chunk_paths w,
  (forall i, In i indices ->
     fst (ffmpeg env (window_cmd env audio_path chunk_duration i)) = 0%Z) ->
  let r := Audio.split_loop env audio_path chunk_duration (mkdtemp env)
                            indices chunk_paths w in
  (forall p, p ∈ files w -> p ∈ files (snd r)) /\
  (forall i, In i indices -> Audio.chunk_path (mkdtemp env) i ∈ files (snd r)) /\
  dirs (snd r) = dirs w.
Proof.
  induction indices as [|i rest IH]; intros chunk_paths w Hok; cbn zeta.
  - cbn. split; [auto|]. split; [intros i []|reflexivity].
  - cbn [Audio.split_loop]. unfold mbind, M_bind, subprocess_run.
    fold (window_cmd env audio_path chunk_duration i).
    rewrite (Hok i (or_introl eq_refl)). cbn [fst snd Z.eqb].
    match goal with
    | |- context [Audio.split_loop _ _ _ _ rest ?p ?w'] =>
        destruct (IH p w') as (IH1 & IH2 & IH3);
          [intros; apply Hok; right; assumption|]
    end.
    cbn zeta in IH1, IH2, IH3. cbn [files dirs] in IH1, IH3.
    split; [|split].
    + intros p Hp. apply IH1, elem_of_union. right. exact Hp.
    + intros j [<- | Hj]; [|apply IH2, Hj].
      apply IH1, elem_of_union. left. apply elem_of_singleton. reflexivity.
    + exact IH3.
Qed.


End Chunking.

Section SplitAudio.
Variable env : Env.
Variable audio_path : string.
Variable chunk_duration frames rate : Z.
Hypothesis Hwave : wave_open env audio_path = Ok (frames, rate).
Hypothesis Hrate : rate <> 0%Z.

Let D : Q := duration_of frames rate.

Lemma inject_Z_nonzero (z : Z) : z <> 0%Z -> Qeq_bool (inject_Z z) 0 = false.
Proof.
  intros Hz. destruct (Qeq_bool (inject_Z z) 0) eqn:E; [|reflexivity].
  apply Qeq_bool_iff in E. unfold Qeq in E. cbn in E. lia.
Qed.

(** Short audio: the original path, no command, no file. *)
Lemma split_short w :
  (D <= inject_Z chunk_duration)%Q ->
  Audio.split_audio_into_chunks env audio_path chunk_duration w
  = (Ok [audio_path], w).
Proof.
  intros Hle. unfold Audio.split_audio_into_chunks, try_except, mbind, M_bind, lift.
  rewrite Hwave. cbn [fst snd]. unfold Audio.true_div at 1.
  rewrite (inject_Z_nonzero rate Hrate). unfold mret, M_ret.
  fold (duration_of frames rate). fold D.
  replace (Qltb (inject_Z chunk_duration) D) with false; [reflexivity|].
  symmetry. apply Qltb_false, Hle.
Qed.

(** Long audio: the temporary directory is made, then the loop over the
    windows runs, inside the [try]. *)
Lemma split_long w :
  chunk_duration <> 0%Z ->
  (inject_Z chunk_duration < D)%Q ->
  Audio.split_audio_into_chunks env audio_path chunk_duration w
  = try_except
      (Audio.split_loop env audio_path chunk_duration (mkdtemp env)
                        (seq 0 (num_chunks D chunk_duration)) [])
      (fun _ => mret [audio_path])
      (mkWorld (files w) ({[ mkdtemp env ]} ∪ dirs w) (ffmpeg_calls w)).
Proof.
  intros HC Hlt. unfold Audio.split_audio_into_chunks, try_except, mbind, M_bind, lift.
  rewrite Hwave. cbn [fst snd]. unfold Audio.true_div.
  rewrite (inject_Z_nonzero rate Hrate), (inject_Z_nonzero chunk_duration HC).
  unfold mret, M_ret, make_dir. fold (duration_of frames rate). fold D.
  replace (Qltb (inject_Z chunk_duration) D) with true; [reflexivity|].
  symmetry. apply Qltb_true, Hlt.
Qed.

End SplitAudio.

Section Windows.
Variable chunk_duration : Z.
Variable D : Q.
Hypothesis HC : (0 < chunk_duration)%Z.
Hypothesis HD : (inject_Z chunk_duration < D)%Q.

Let c : Q := inject_Z chunk_duration.
Let N : Z := Qceiling (D / c).

Lemma c_pos : (0 < c)%Q.
Proof. unfold c. change 0%Q with (inject_Z 0). rewrite <- Zlt_Qlt. exact HC. Qed.

Lemma ratio_bounds : (D <= inject_Z N * c)%Q /\ (inject_Z N * c - c < D)%Q.
Proof.
  pose proof c_pos as Hc.
  assert (E : (D == D / c * c)%Q) by (field; lra).
  pose proof (Qle_ceiling (D / c)) as Hup.
  pose proof (Qceiling_lt (D / c)) as Hlo.
  fold N in Hup, Hlo.
  replace (N - 1)%Z with (N + -1)%Z in Hlo by lia.
  rewrite inject_Z_plus in Hlo. change (inject_Z (-1)) with (-1 # 1)%Q in Hlo.
  split.
  - rewrite E at 1. apply Qmult_le_compat_r; [exact Hup | lra].
  - assert (H : ((inject_Z N + (-1 # 1)) * c < D / c * c)%Q)
      by (apply Qmult_lt_compat_r; assumption).
    rewrite <- E in H. lra.
Qed.

Lemma N_ge_2 : (2 <= N)%Z.
Proof.
  pose proof c_pos as Hc. destruct ratio_bounds as [Hup _].
  destruct (Z_lt_le_dec N 2) as [Hlt|]; [|assumption]. exfalso.
  assert (HN : (inject_Z N <= 1)%Q).
  { change 1%Q with (inject_Z 1). rewrite <- Zle_Qle. lia. }
  assert ((inject_Z N * c <= 1 * c)%Q) by (apply Qmult_le_compat_r; lra).
  fold c in HD. lra.
Qed.

Lemma num_chunks_N : Z.of_nat (num_chunks D chunk_duration) = N.
Proof. unfold num_chunks. fold c N. pose proof N_ge_2. lia. Qed.

(** Every window but the last is full; the last one holds the rest. *)
Lemma window_lengths (k : nat) :
  (k < num_chunks D chunk_duration)%nat ->
  let n := num_chunks D chunk_duration in
  (extracted_length D (Z.of_nat k * chunk_duration) chunk_duration
   == if (S k <? n)%nat then c
      else D - inject_Z (Z.of_nat (n - 1) * chunk_duration))%Q.
Proof.
  intros Hk n. pose proof c_pos as Hc. destruct ratio_bounds as [Hup Hlo].
  pose proof num_chunks_N as HN. fold n in HN.
  unfold extracted_length. fold c. rewrite !inject_Z_mult. fold c.
  destruct (S k <? n)%nat eqn:E.
  - apply Nat.ltb_lt in E.
    assert (Hk1 : (inject_Z (Z.of_nat k) + 1 <= inject_Z N - 1)%Q).
    { change 1%Q with (inject_Z 1). rewrite <- inject_Z_plus.
      unfold Qminus. change (- inject_Z 1)%Q with (inject_Z (-1)).
      rewrite <- inject_Z_plus, <- Zle_Qle. lia. }
    assert (((inject_Z (Z.of_nat k) + 1) * c <= (inject_Z N - 1) * c)%Q)
      by (apply Qmult_le_compat_r; lra).
    rewrite (Q.min_l c) by lra. apply Q.max_r. lra.
  - apply Nat.ltb_ge in E.
    assert (Hkn : Z.of_nat k = (N - 1)%Z) by lia.
    assert (Hn1 : Z.of_nat (n - 1) = (N - 1)%Z) by lia.
    rewrite Hkn, Hn1.
    replace (N - 1)%Z with (N + -1)%Z by lia. rewrite inject_Z_plus.
    change (inject_Z (-1)) with (-1 # 1)%Q.
    rewrite (Q.min_r c) by lra. apply Q.max_r. lra.
Qed.

End Windows.

(** A decimal argument written by [str] reads back as the integer. *)
Lemma decimal_arg_str (z : Z) : decimal_arg (PyStr.str_of_int z) = Some z.
Proof.
  unfold decimal_arg, PyStr.str_of_int.
  rewrite NilZero.isi.
  - cbn [option_map]. rewrite DecimalZ.of_to. reflexivity.
  - destruct z as [|p|p]; cbn; try discriminate.
    intros [= H]. exact (DecimalPos.Unsigned.to_uint_nonnil p H).
  - destruct z as [|p|p]; cbn; try discriminate.
    intros [= H]. exact (DecimalPos.Unsigned.to_uint_nonnil p H).
Qed.

(** The window of the command line of chunk [k]. *)
Lemma cut_window_split_cmd (D : Q) (audio_path output_path : string)
      (start_time chunk_duration : Z) :
  cut_window D
    [ "ffmpeg"; "-y"; "-ss"; PyStr.str_of_int start_time; "-i"; audio_path;
      "-t"; PyStr.str_of_int chunk_duration;
      "-c:a"; "pcm_s16le"; "-ar"; "16000"; "-ac"; "1"; output_path ]
  = Some (start_time, extracted_length D start_time chunk_duration).
Proof.
  unfold cut_window.
  replace (option_value "-ss" _) with (Some (PyStr.str_of_int start_time))
    by reflexivity.
  replace (option_value "-t" _) with (Some (PyStr.str_of_int chunk_duration))
    by reflexivity.
  cbn [mbind option_bind]. rewrite !decimal_arg_str. reflexivity.
Qed.

(** C4. With a readable recording of [D = frames / rate] seconds, a
    positive chunk duration [C] and a tool that succeeds.  For [D <= C] the
    result is the original path alone, and nothing is run, written or
    created.  For [D > C] the result lists [n = ceil(D / C)] chunk files;
    chunk [k] is the file [<tmpdir>/chunk_<k>.wav], it exists afterwards,
    and it was written by the [k]-th command that was run, which is
    [ffmpeg -y -ss <k * C> -i <audio> -t <C> -c:a pcm_s16le -ar 16000
    -ac 1 <chunk k>]: a window that starts at [k * C] and is [C] seconds
    long for every chunk but the last, and [D - (n - 1) * C] seconds long
    for the last one. *)
Theorem chunking_windows
  (env : Env) (audio_path : string) (chunk_duration frames rate : Z) (w : World) :
  wave_open env audio_path = Ok (frames, rate) ->
  (0 < rate)%Z ->
  (0 < chunk_duration)%Z ->
  (forall cmd, fst (ffmpeg env cmd) = 0%Z) ->
  let D := duration_of frames rate in
  let r := Audio.split_audio_into_chunks env audio_path chunk_duration w in
  ((D <= inject_Z chunk_duration)%Q -> r = (Ok [audio_path], w)) /\
  ((inject_Z chunk_duration < D)%Q ->
   let n := num_chunks D chunk_duration in
   Z.of_nat n = Qceiling (D / inject_Z chunk_duration) /\
   exists chunk_paths cmds,
     fst r = Ok chunk_paths /\ length chunk_paths = n /\
     ffmpeg_calls (snd r) = ffmpeg_calls w ++ cmds /\ length cmds = n /\
     forall k, (k < n)%nat ->
       exists output_path cmd length,
         output_path
         = mkdtemp env +:+ "/chunk_" +:+ PyStr.str_of_int (Z.of_nat k) +:+ ".wav" /\
         cmd = [ "ffmpeg"; "-y";
                 "-ss"; PyStr.str_of_int (Z.of_nat k * chunk_duration);
                 "-i"; audio_path;
                 "-t"; PyStr.str_of_int chunk_duration;
                 "-c:a"; "pcm_s16le"; "-ar"; "16000"; "-ac"; "1";
                 output_path ] /\
         nth_error chunk_paths k = Some output_path /\
         output_path ∈ files (snd r) /\
         nth_error cmds k = Some cmd /\
         cut_window D cmd = Some ((Z.of_nat k * chunk_duration)%Z, length) /\
         (length == if (S k <? n)%nat then inject_Z chunk_duration
                    else D - inject_Z (Z.of_nat (n - 1) * chunk_duration))%Q).
Proof.
  intros Hwave Hrate HC Hok D r. subst r. split.
  - intros Hle. apply (split_short env audio_path chunk_duration frames rate Hwave);
      [lia | exact Hle].
  - intros Hlt n.
    rewrite (split_long env audio_path chunk_duration frames rate Hwave) by (lia || exact Hlt).
    fold D n. unfold try_except.
    set (w0 := mkWorld (files w) ({[ mkdtemp env ]} ∪ dirs w) (ffmpeg_calls w)).
    destruct (split_loop_success env audio_path chunk_duration (seq 0 n) [] w0)
      as [H1 H2]; [intros; apply Hok|]. cbn zeta in H1, H2.
    pose proof (split_loop_files env audio_path chunk_duration (seq 0 n) [] w0
                  (fun i _ => Hok _)) as H3. cbn zeta in H3.
    destruct (Audio.split_loop _ _ _ _ _ _ _) as [[paths|e] w'];
      cbn [fst snd] in *; [|discriminate].
    injection H1 as ->. cbn [app].
    split; [apply (num_chunks_N chunk_duration D HC Hlt)|].
    exists (map (Audio.chunk_path (mkdtemp env)) (seq 0 n)),
           (map (window_cmd env audio_path chunk_duration) (seq 0 n)).
    split; [reflexivity|]. split; [rewrite length_map, length_seq; reflexivity|].
    split; [exact H2|]. split; [rewrite length_map, length_seq; reflexivity|].
    intros k Hk.
    assert (Hseq : nth_error (seq 0 n) k = Some k).
    { rewrite nth_error_seq. apply Nat.ltb_lt in Hk. rewrite Hk. reflexivity. }
    destruct H3 as (_ & H3 & _).
    eexists _, _, _. split; [reflexivity|]. split; [reflexivity|].
    split; [rewrite nth_error_map, Hseq; reflexivity|].
    split; [apply (H3 k), in_seq; lia|].
    split; [rewrite nth_error_map, Hseq; reflexivity|].
    split; [apply cut_window_split_cmd|].
    apply (window_lengths chunk_duration D HC Hlt k Hk).
Qed.

Lemma chunking_windows_witness :
  let env := example_env ffmpeg_ok in
  let D := duration_of (16000 * 700) 16000 in
  let r := Audio.split_audio_into_chunks env "/tmp/tmpconv.wav" 300 empty_world in
  wave_open env "/tmp/tmpconv.wav" = Ok (16000 * 700, 16000)%Z /\
  Z.of_nat (num_chunks D 300) = 3%Z /\
  exists chunk_paths cmds,
    fst r = Ok chunk_paths /\
    ffmpeg_calls (snd r) = cmds /\
    nth_error chunk_paths 2 = Some "/tmp/tmpchunks/chunk_2.wav" /\
    exists cmd length,
      nth_error cmds 2 = Some cmd /\
      cut_window D cmd = Some (600%Z, length) /\ (length == 100)%Q.
Proof.
  intros env D r. split; [reflexivity|].
  destruct (chunking_windows env "/tmp/tmpconv.wav" 300 (16000 * 700) 16000
              empty_world eq_refl eq_refl eq_refl (fun cmd => eq_refl))
    as [_ Hlong].
  destruct Hlong as (Hn & chunk_paths & cmds & Hr & _ & Hcalls & _ & Hk);
    [reflexivity|].
  split; [exact Hn|].
  exists chunk_paths, cmds. split; [exact Hr|]. split; [exact Hcalls|].
  destruct (Hk 2%nat) as (path & cmd & len & -> & _ & Hpath & _ & Hcmd & Hcut & Hlen2);
    [vm_compute; lia|].
  split; [exact Hpath|].
  exists cmd, len. split; [exact Hcmd|]. split; [exact Hcut|].
  eapply Qeq_trans; [exact Hlen2 | vm_compute; reflexivity].
Defined.




(** ** Reading an integer *)

(** [int] skips blanks around the number and a sign before it; it does
    not skip the separator [\x1c], which [str.strip] removes. *)
Example int_examples :
  PyStr.int " 5 " = Some 5%Z /\
  PyStr.int "-05" = Some (-5)%Z /\
  PyStr.int "00" = Some 0%Z /\
  PyStr.int "" = None /\
  PyStr.int "- 5" = None /\
  PyStr.int "5 5" = None /\
  PyStr.int (String (ascii_of_nat 28) "5") = None /\
  PyStr.strip (String (ascii_of_nat 28) "5") = "5".
Proof. vm_compute. repeat split; reflexivity. Qed.

(** ** Speaker-prefixed text *)

Section SpeakerPrefix.

Lemma differs_false lbl prev : Api.differs lbl prev = false <-> prev = Some lbl.
Proof.
  unfold Api.differs. destruct prev as [p|]; [|split; discriminate].
  rewrite negb_false_iff, String.eqb_eq. split; congruence.
Qed.

Lemma differs_true lbl prev : Api.differs lbl prev = true <-> prev <> Some lbl.
Proof.
  rewrite <- not_false_iff_true, differs_false. reflexivity.
Qed.

Lemma set_text_same seg : Models.set_text seg (Models.text seg) = seg.
Proof. destruct seg; reflexivity. Qed.

(** One step of the loop on a segment with a numbered speaker label. *)
Lemma prefix_segment_numbered st seg lbl n :
  Models.speaker seg = Some lbl ->
  speaker_number lbl = Some n ->
  Api.prefix_segment st seg =
  if Api.differs lbl (Api.previous_speaker st) then
    if bool_decide (lbl ∉ Api.seen_speakers st) then
      (Api.mkPrefixState (Some lbl) ({[ lbl ]} ∪ Api.seen_speakers st),
       Models.set_text seg
         (("Speaker " +:+ PyStr.str_of_int n +:+ ": ") +:+ Models.text seg))
    else
      (Api.mkPrefixState (Some lbl) (Api.seen_speakers st),
       Models.set_text seg ((PyStr.str_of_int n +:+ ": ") +:+ Models.text seg))
  else (Api.mkPrefixState (Some lbl) (Api.seen_speakers st), seg).
Proof.
  intros Hs Hn. unfold speaker_number in Hn.
  destruct (PyStr.startswith "speaker_" lbl) eqn:Hp; [|discriminate].
  destruct (PyStr.int _) as [m|] eqn:Hm; [|discriminate].
  injection Hn as <-.
  unfold Api.prefix_segment, Transcription.truthy_speaker. rewrite Hs.
  destruct lbl as [|c lbl']; [discriminate|].
  rewrite Hp, Hm. reflexivity.
Qed.





End SpeakerPrefix.








(** A segment whose label lacks the ["speaker_"] prefix passes through the
    loop body untouched and leaves the tracker as it was. *)
Lemma prefix_segment_unlabelled st seg lbl :
  Models.speaker seg = Some lbl ->
  PyStr.startswith "speaker_" lbl = false ->
  Api.prefix_segment st seg = (st, seg).
Proof.
  intros Hs Hp. unfold Api.prefix_segment, Transcription.truthy_speaker.
  rewrite Hs. destruct lbl as [|c lbl']; [reflexivity|].
  rewrite Hp. reflexivity.
Qed.

(** After a segment labelled [lbl], another segment labelled [lbl] gets no
    prefix, whatever kind of label [lbl] is. *)
Lemma prefix_segment_repeat st seg1 seg2 lbl :
  Models.speaker seg1 = Some lbl ->
  Models.speaker seg2 = Some lbl ->
  snd (Api.prefix_segment (fst (Api.prefix_segment st seg1)) seg2) = seg2.
Proof.
  intros H1 H2. unfold Api.prefix_segment, Transcription.truthy_speaker.
  rewrite H1, H2. destruct lbl as [|c lbl']; [reflexivity|].
  destruct (PyStr.startswith "speaker_" (String c lbl')); [|reflexivity].
  destruct (PyStr.int _) as [m|].
  - assert (Hd : forall seen,
              Api.differs (String c lbl')
                (Api.previous_speaker (Api.mkPrefixState (Some (String c lbl')) seen))
              = false) by (intros; apply differs_false; reflexivity).
    destruct (Api.differs (String c lbl') (Api.previous_speaker st));
      [destruct (bool_decide _)|]; cbn [fst snd]; rewrite Hd; reflexivity.
  - destruct (Api.differs "Speaker" (Api.previous_speaker st)) eqn:Hd;
      cbn [fst snd Api.previous_speaker].
    + reflexivity.
    + rewrite Hd. reflexivity.
Qed.

(** C10. A segment whose speaker label does not start with ["speaker_"]
    gets no prefix and leaves the previous-speaker tracker and the set of
    seen speakers as they were; ["unknown"] is such a label.  Hence in a
    run of speakers [[A, u, A]] with such a [u] in the middle, the third
    segment continues the first and gets no prefix either. *)
Theorem unlabelled_segment_is_skipped
  (st : Api.PrefixState) (seg1 seg2 seg3 : Models.WhisperSegment) (A u : string) :
  Models.speaker seg2 = Some u ->
  PyStr.startswith "speaker_" u = false ->
  Models.speaker seg1 = Some A ->
  Models.speaker seg3 = Some A ->
  Api.prefix_segment st seg2 = (st, seg2) /\
  PyStr.startswith "speaker_" "unknown" = false /\
  Api.prefix_loop st [seg1; seg2; seg3]
  = [snd (Api.prefix_segment st seg1); seg2; seg3].
Proof.
  intros Hu Hp H1 H3.
  split; [apply (prefix_segment_unlabelled st seg2 u Hu Hp)|].
  split; [reflexivity|].
  cbn [Api.prefix_loop].
  rewrite (prefix_segment_unlabelled _ seg2 u Hu Hp). cbn [fst snd].
  rewrite (prefix_segment_repeat st seg1 seg3 A H1 H3). reflexivity.
Qed.

Lemma unlabelled_segment_is_skipped_witness :
  map Models.text
      (fst (Api.include_speakers_in_text
              [ spoken 0 "hi" speaker_A; spoken 1 "er" "unknown";
                spoken 2 "there" speaker_A ]))
  = ["Speaker 1: hi"; "er"; "there"].
Proof.
  unfold Api.include_speakers_in_text. cbn [fst].
  destruct (unlabelled_segment_is_skipped (Api.mkPrefixState None ∅)
              (spoken 0 "hi" speaker_A) (spoken 1 "er" "unknown")
              (spoken 2 "there" speaker_A) speaker_A "unknown"
              eq_refl eq_refl eq_refl eq_refl) as (_ & _ & ->).
  reflexivity.
Defined.

(** ** The transcription endpoint *)

(** Whatever the request, the handler answers 200, 500 or 503: every
    exception raised inside its [try], an [HTTPException] included, leaves
    as a 500. *)
Lemma transcribe_audio_statuses (env : Env) (req : Api.Request) (w : World) :
  let status := Api.status_of (fst (Api.transcribe_audio env req w)) in
  status = 200%Z \/ status = 500%Z \/ status = 503%Z.
Proof.
  unfold Api.transcribe_audio. destruct (asr_model env) as [asr|].
  - unfold try_except.
    destruct (Api.transcribe_body env asr req w) as [[resp|e] w']; cbn; auto.
  - cbn. auto.
Qed.

Lemma transcribe_audio_never_400 (env : Env) (req : Api.Request) (w : World) :
  Api.status_of (fst (Api.transcribe_audio env req w)) <> 400%Z.
Proof.
  pose proof (transcribe_audio_statuses env req w) as H. cbn zeta in H. lia.
Qed.

(** C3, on the code.  A request for the unsupported format ["xml"], with
    the model loaded and the whole processing successful, is answered with
    status 500 and not 400: the [HTTPException(400)] of the final [else] is
    raised inside the [try] and re-raised as a 500 by its [except Exception]
    clause. *)
Theorem unsupported_format_answers_500 :
  let env := example_env ffmpeg_ok in
  let req := example_request "xml" in
  let r := Api.transcribe_audio env req empty_world in
  ~ In (Api.response_format req) Api.supported_formats /\
  fst r = Raise (HTTPException 500 "400: Unsupported response format: xml") /\
  Api.status_of (fst r) <> 400%Z.
Proof.
  cbv zeta. split.
  - cbn. intros [H | [H | [H | [H | [H | []]]]]]; discriminate.
  - split; [vm_compute; reflexivity | apply transcribe_audio_never_400].
Qed.

(** C9, on the code.  When the conversion to WAV fails, the request ends
    with status 500 and the uploaded file copy is still on disk: the
    clean-up runs on the success path only. *)
Theorem upload_survives_failed_conversion :
  let env := example_env ffmpeg_fails_conversion in
  let r := Api.transcribe_audio env (example_request "json") empty_world in
  Api.status_of (fst r) = 500%Z /\
  "/tmp/parakeet/upload_0123456789abcdef.mp3" ∈ files (snd r).
Proof.
  cbv zeta. split; [vm_compute; reflexivity|].
  apply (bool_decide_unpack _). vm_compute. exact I.
Qed.

(** A request that succeeds can leave files behind as well: when the tool
    fails on the second window, the chunk written for the first window is
    never removed. *)
Lemma chunk_survives_split_fallback :
  let env := example_env ffmpeg_fails_second_window in
  let r := Api.transcribe_audio env (example_request "text") empty_world in
  Api.status_of (fst r) = 200%Z /\
  "/tmp/tmpchunks/chunk_0.wav" ∈ files (snd r).
Proof.
  cbv zeta. split; [vm_compute; reflexivity|].
  apply (bool_decide_unpack _). vm_compute. exact I.
Qed.

(** On the success path with every tool call succeeding, nothing is left. *)
Lemma success_path_cleans_up :
  let env := example_env ffmpeg_ok in
  let r := Api.transcribe_audio env (example_request "json") empty_world in
  Api.status_of (fst r) = 200%Z /\ elements (files (snd r)) = [].
Proof. cbv zeta. split; vm_compute; reflexivity. Qed.

(** ** Subtitle rendering *)

(** C8, on the code.  A segment whose text is ["--->"] is rendered with
    the text body ["-->"]: the replacement scans once from the left, and
    the dash it leaves behind joins the inserted ["->"]. *)
Theorem srt_text_keeps_an_arrow :
  let segment := Models.new 0 0 1 "--->" in
  Transcription.srt_text segment = "-->" /\
  Transcription.format_srt [segment]
  = "1" +:+ Transcription.nl +:+
    "0:00:00,000 --> 0:00:01,000" +:+ Transcription.nl +:+
    "-->".
Proof. cbv zeta. split; vm_compute; reflexivity. Qed.

(* ===================================================================== *)
(** * Further properties of the code *)
(* ===================================================================== *)

(** ** Diarizer.diarize *)

Section Diarize.
Import Diarization.

Lemma insert_by_start_Forall (P : SpeakerSegment -> Prop) x l :
  P x -> Forall P l -> Forall P (insert_by_start x l).
Proof.
  intros Hx Hl. induction Hl as [|y l Hy Hl IH]; cbn; [repeat constructor; exact Hx|].
  destruct (Qltb _ _); repeat constructor; assumption.
Qed.

Lemma sort_by_start_Forall (P : SpeakerSegment -> Prop) l :
  Forall P l -> Forall P (sort_by_start l).
Proof.
  induction 1 as [|x l Hx Hl IH]; cbn; [constructor|].
  apply insert_by_start_Forall; assumption.
Qed.

Lemma insert_by_start_perm x l : Permutation (insert_by_start x l) (x :: l).
Proof.
  induction l as [|y l IH]; cbn; [reflexivity|].
  destruct (Qltb _ _); [|reflexivity].
  rewrite IH. apply perm_swap.
Qed.

Lemma sort_by_start_perm l : Permutation (sort_by_start l) l.
Proof.
  induction l as [|x l IH]; cbn; [reflexivity|].
  rewrite insert_by_start_perm, IH. reflexivity.
Qed.

Lemma append_cons c s1 s2 : String c s1 +:+ s2 = String c (s1 +:+ s2).
Proof. reflexivity. Qed.

Lemma append_nil s : "" +:+ s = s.
Proof. reflexivity. Qed.

Lemma prefix_cons a p s :
  String.prefix (String a p) (String a s) = String.prefix p s.
Proof. cbn. destruct (ascii_dec a a); [reflexivity | contradiction]. Qed.

Lemma sort_by_start_In x l : In x (sort_by_start l) <-> In x l.
Proof.
  split; intros H.
  - eapply Permutation_in; [apply sort_by_start_perm | exact H].
  - eapply Permutation_in; [symmetry; apply sort_by_start_perm | exact H].
Qed.

Lemma SPEAKER_prefix_added s :
  PyStr.startswith "speaker_SPEAKER_" ("speaker_SPEAKER_" +:+ s) = true.
Proof.
  unfold PyStr.startswith. rewrite ?append_cons, ?append_nil, !prefix_cons.
  destruct s; reflexivity.
Qed.

Lemma SPEAKER_prefix_kept s :
  PyStr.startswith "SPEAKER_" s = true ->
  PyStr.startswith "speaker_SPEAKER_" ("speaker_" +:+ s) = true.
Proof.
  unfold PyStr.startswith. intros H.
  rewrite ?append_cons, ?append_nil, !prefix_cons. exact H.
Qed.

End Diarize.

(** X2. Every turn [Diarizer.diarize] returns comes from a track of the
    pipeline, with the same times and the label of the track behind
    ["speaker_"].  A [str] label comes out as ["speaker_SPEAKER_..."]: it
    is kept when it starts with ["SPEAKER_"] and gets that prefix when it
    does not.  A label that is not a [str] gets no ["SPEAKER_"]: the
    integer label [0] comes out as ["speaker_0"]. *)
Theorem diarize_labels
  (run : string -> result (list (Q * Q * Diarization.label)))
  (audio_path : string) (tracks : list (Q * Q * Diarization.label)) :
  run audio_path = Ok tracks ->
  forall turn,
    In turn (Diarization.segments (Diarization.diarize (Some run) audio_path)) ->
    exists speaker0,
      In (Diarization.start turn, Diarization.end_ turn, speaker0) tracks /\
      match speaker0 with
      | inl s =>
          Diarization.speaker turn
          = (if PyStr.startswith "SPEAKER_" s then "speaker_" +:+ s
             else "speaker_SPEAKER_" +:+ s) /\
          PyStr.startswith "speaker_SPEAKER_" (Diarization.speaker turn) = true
      | inr n => Diarization.speaker turn = "speaker_" +:+ PyStr.str_of_int n
      end.
Proof.
  intros Hrun turn Hin. unfold Diarization.diarize in Hin. rewrite Hrun in Hin.
  cbn [Diarization.segments] in Hin. apply (proj1 (sort_by_start_In _ _)) in Hin.
  apply in_map_iff in Hin as ([[turn_start turn_end] speaker0] & <- & Hin).
  exists speaker0. cbn [Diarization.start Diarization.end_ Diarization.speaker].
  split; [exact Hin|].
  destruct speaker0 as [s|n]; [|reflexivity].
  cbn [Diarization.speaker_id].
  destruct (PyStr.startswith "SPEAKER_" s) eqn:E; cbn [negb Diarization.format_label].
  - split; [reflexivity | apply SPEAKER_prefix_kept, E].
  - split; [reflexivity | apply SPEAKER_prefix_added].
Qed.

Lemma diarize_labels_witness :
  let turn := Diarization.mkSpeakerSegment 0 4 "speaker_0" in
  In turn (Diarization.segments
             (Diarization.diarize (Some example_pipeline_int) "/tmp/tmpconv.wav")) /\
  exists speaker0,
    In (0%Q, 4%Q, speaker0) [ (0%Q, 4%Q, inr 0%Z); (5%Q, 6%Q, inr 1%Z) ] /\
    match speaker0 with
    | inl s =>
        "speaker_0" = (if PyStr.startswith "SPEAKER_" s then "speaker_" +:+ s
                       else "speaker_SPEAKER_" +:+ s) /\
        PyStr.startswith "speaker_SPEAKER_" "speaker_0" = true
    | inr n => "speaker_0" = "speaker_" +:+ PyStr.str_of_int n
    end.
Proof.
  intros turn.
  assert (Hin : In turn (Diarization.segments
                           (Diarization.diarize (Some example_pipeline_int)
                                                "/tmp/tmpconv.wav")))
    by (left; reflexivity).
  split; [exact Hin|].
  exact (diarize_labels example_pipeline_int "/tmp/tmpconv.wav" _ eq_refl turn Hin).
Defined.

(** X3. A successful pipeline run loses and duplicates no track: the
    returned turns are the converted tracks, reordered. *)
Theorem diarize_keeps_tracks
  (run : string -> result (list (Q * Q * Diarization.label))) (audio_path : string)
  (tracks : list (Q * Q * Diarization.label)) :
  run audio_path = Ok tracks ->
  Permutation
    (Diarization.segments (Diarization.diarize (Some run) audio_path))
    (map (fun track : Q * Q * Diarization.label =>
            Diarization.mkSpeakerSegment (fst (fst track)) (snd (fst track))
              ("speaker_" +:+
               match snd track with
               | inl s => if PyStr.startswith "SPEAKER_" s then s
                          else "SPEAKER_" +:+ s
               | inr n => PyStr.str_of_int n
               end))
         tracks).
Proof.
  intros Hrun. unfold Diarization.diarize. rewrite Hrun. cbn [Diarization.segments].
  rewrite sort_by_start_perm.
  apply Permutation_refl'. apply map_ext. intros [[a b] [s|n]]; [|reflexivity].
  cbn [fst snd Diarization.speaker_id].
  destruct (PyStr.startswith "SPEAKER_" s); reflexivity.
Qed.

Lemma diarize_keeps_tracks_witness :
  length (Diarization.segments
            (Diarization.diarize
               (Some example_pipeline) "/tmp/tmpconv.wav"))
  = 2%nat.
Proof.
  rewrite (Permutation_length
             (diarize_keeps_tracks example_pipeline "/tmp/tmpconv.wav" _ eq_refl)).
  reflexivity.
Defined.

(** X4. The reported number of speakers is at most the number of turns,
    and it is zero exactly when there is no turn. *)
Theorem diarize_speaker_count pipeline audio_path :
  let d := Diarization.diarize pipeline audio_path in
  (0 <= Diarization.num_speakers d <= Z.of_nat (length (Diarization.segments d)))%Z /\
  (Diarization.num_speakers d = 0%Z <-> Diarization.segments d = []).
Proof.
  unfold Diarization.diarize. destruct pipeline as [run|]; [|cbn; split; [lia|tauto]].
  destruct (run audio_path) as [tracks|e]; [|cbn; split; [lia|tauto]].
  cbn zeta. cbn [Diarization.segments Diarization.num_speakers].
  set (ids := map (fun track : Q * Q * Diarization.label =>
                    Diarization.speaker_id (snd track)) tracks).
  set (segs := map _ tracks).
  assert (Hlen : length (Diarization.sort_by_start segs) = length ids).
  { rewrite (Permutation_length (sort_by_start_perm segs)).
    unfold segs, ids. rewrite !length_map. reflexivity. }
  assert (Hsize : size (list_to_set ids : gset Diarization.label) <= length ids).
  { clear. induction ids as [|x ids IH]; [rewrite list_to_set_nil, size_empty; lia|].
    rewrite list_to_set_cons, size_union_alt, size_singleton. cbn [length].
    assert (Hsub : list_to_set ids ∖ {[x]} ⊆ (list_to_set ids : gset Diarization.label))
      by apply subseteq_difference_l, reflexivity.
    apply subseteq_size in Hsub. lia. }
  split; [rewrite Hlen; lia|].
  split.
  - intros H0. assert (Hs : size (list_to_set ids : gset Diarization.label) = 0) by lia.
    apply size_empty_inv in Hs.
    destruct ids as [|x ids'] eqn:E.
    + destruct (Diarization.sort_by_start segs); [reflexivity | discriminate].
    + exfalso. apply (not_elem_of_empty (C:=gset Diarization.label) x). rewrite <- Hs.
      apply elem_of_list_to_set. left.
  - intros Hnil. rewrite Hnil in Hlen. cbn in Hlen.
    destruct ids; [reflexivity | discriminate].
Qed.

(** ** Diarizer.merge_with_transcription *)

Lemma dominant_speaker_set_speaker turns segment lbl :
  Diarization.dominant_speaker turns (Models.set_speaker segment lbl)
  = Diarization.dominant_speaker turns segment.
Proof. reflexivity. Qed.

(** X5. The merge touches the speaker of a segment and nothing else:
    number and order of the segments, their ids, times and texts are kept. *)
Theorem merge_keeps_segment_data
  (d : Diarization.DiarizationResult) (segs : list Models.WhisperSegment) :
  let merged := Diarization.merge_with_transcription d segs in
  map Models.id merged = map Models.id segs /\
  map Models.start merged = map Models.start segs /\
  map Models.end_ merged = map Models.end_ segs /\
  map Models.text merged = map Models.text segs.
Proof.
  unfold Diarization.merge_with_transcription.
  destruct (Diarization.segments d) as [|t ts]; cbn zeta; [repeat split|].
  rewrite !map_map. repeat split; apply map_ext; reflexivity.
Qed.

(** X6. Merging twice with the same diarization gives what merging once
    gives: the label depends on the times of the segment alone. *)
Theorem merge_idempotent
  (d : Diarization.DiarizationResult) (segs : list Models.WhisperSegment) :
  Diarization.merge_with_transcription d
    (Diarization.merge_with_transcription d segs)
  = Diarization.merge_with_transcription d segs.
Proof.
  unfold Diarization.merge_with_transcription.
  destruct (Diarization.segments d) as [|t ts]; [reflexivity|].
  rewrite map_map. apply map_ext. intros segment.
  rewrite dominant_speaker_set_speaker. reflexivity.
Qed.

(** ** transcribe_audio_chunk *)

Lemma stamps_to_segments_nth stamps : forall i k stamp,
  nth_error stamps k = Some stamp ->
  nth_error (Transcription.stamps_to_segments i stamps) k
  = Some (Models.new (Z.of_nat (i + k)) (Transcription.stamp_start stamp)
            (Transcription.stamp_end stamp) (Transcription.stamp_segment stamp)).
Proof.
  induction stamps as [|s stamps IH]; intros i k stamp H.
  - destruct k; discriminate.
  - destruct k as [|k]; cbn in *.
    + injection H as ->. rewrite Nat.add_0_r. reflexivity.
    + rewrite (IH (S i) k stamp H). do 3 f_equal. lia.
Qed.

Lemma stamps_to_segments_length stamps : forall i,
  length (Transcription.stamps_to_segments i stamps) = length stamps.
Proof. induction stamps; intros i; cbn; auto. Qed.

(** X7. When the model returns segment timestamps, the chunk text is the
    text of the first result, and there is one segment per stamp, in
    order: segment [k] has id [k], the start, end and text of stamp [k],
    default values elsewhere and no speaker. *)
Theorem transcribe_audio_chunk_segments
  (model : string -> result (list Transcription.AsrHypothesis))
  (audio_path : string) (first : Transcription.AsrHypothesis)
  (others : list Transcription.AsrHypothesis) (stamps : list Transcription.Stamp) :
  model audio_path = Ok (first :: others) ->
  Transcription.hyp_timestamp_segment first = Some stamps ->
  let r := Transcription.transcribe_audio_chunk model audio_path in
  fst r = Transcription.hyp_text first /\
  length (snd r) = length stamps /\
  forall k stamp, nth_error stamps k = Some stamp ->
    nth_error (snd r) k
    = Some (Models.new (Z.of_nat k) (Transcription.stamp_start stamp)
              (Transcription.stamp_end stamp) (Transcription.stamp_segment stamp)).
Proof.
  intros Hm Hs. unfold Transcription.transcribe_audio_chunk. rewrite Hm, Hs.
  cbn [fst snd]. split; [reflexivity|].
  split; [apply stamps_to_segments_length|].
  intros k stamp Hk. apply (stamps_to_segments_nth stamps 0 k stamp Hk).
Qed.

Lemma transcribe_audio_chunk_segments_witness :
  nth_error (raw_segments example_asr "/tmp/tmpchunks/chunk_0.wav") 0
  = Some (Models.new 0 1 2 "hello").
Proof.
  exact (proj2 (proj2 (transcribe_audio_chunk_segments example_asr
                         "/tmp/tmpchunks/chunk_0.wav" _ _ _ eq_refl eq_refl))
               0%nat _ eq_refl).
Defined.

(** ** _format_timestamp *)

Lemma Qfloor_unique (z : Z) (y : Q) :
  (inject_Z z <= y)%Q -> (y < inject_Z (z + 1))%Q -> Qfloor y = z.
Proof.
  intros Hlo Hhi.
  pose proof (Qfloor_le y) as Hf1. pose proof (Qlt_floor y) as Hf2.
  assert (H1 : (inject_Z (Qfloor y) < inject_Z (z + 1))%Q) by lra.
  assert (H2 : (inject_Z z < inject_Z (Qfloor y + 1))%Q) by lra.
  rewrite <- Zlt_Qlt in H1, H2. lia.
Qed.

Lemma int_of_float_nonneg (x : Q) :
  (0 <= x)%Q -> Transcription.int_of_float x = Qfloor x.
Proof.
  intros Hx. unfold Transcription.int_of_float.
  replace (Qltb x 0) with false; [reflexivity|].
  symmetry. apply Qltb_false, Hx.
Qed.

Lemma Qfloor_nonneg (x : Q) : (0 <= x)%Q -> (0 <= Qfloor x)%Z.
Proof.
  intros Hx. change 0%Z with (Qfloor 0). apply Qfloor_resp_le, Hx.
Qed.

(** [x % m] lies in [[0, m)] and differs from [x] by a multiple of [m]. *)
Lemma float_mod_spec (x : Q) (m : Z) :
  (0 < m)%Z ->
  let r := Transcription.float_mod x m in
  (0 <= r)%Q /\ (r < inject_Z m)%Q /\
  (x == inject_Z m * inject_Z (Qfloor (x / inject_Z m)) + r)%Q.
Proof.
  intros Hm. cbn zeta. unfold Transcription.float_mod.
  assert (Hmq : (0 < inject_Z m)%Q)
    by (change 0%Q with (inject_Z 0); rewrite <- Zlt_Qlt; exact Hm).
  set (q := (x / inject_Z m)%Q).
  assert (E : (x == q * inject_Z m)%Q) by (unfold q; field; lra).
  pose proof (Qfloor_le q) as Hlo. pose proof (Qlt_floor q) as Hhi.
  rewrite inject_Z_plus in Hhi. change (inject_Z 1) with 1%Q in Hhi.
  rewrite inject_Z_mult.
  set (f := inject_Z (Qfloor q)) in *.
  assert (H1 : (f * inject_Z m <= q * inject_Z m)%Q)
    by (apply Qmult_le_compat_r; lra).
  assert (H2 : (q * inject_Z m < (f + 1) * inject_Z m)%Q)
    by (apply Qmult_lt_compat_r; lra).
  rewrite <- E in H1, H2. repeat split; lra.
Qed.

(** The fields of a timestamp, for a time of at least zero seconds. *)
Lemma timestamp_fields
  (seconds : Q) (always_include_hours : bool) :
  (0 <= seconds)%Q ->
  exists (hours minutes : Z) (rest : Q),
    (0 <= hours)%Z /\ (0 <= minutes <= 59)%Z /\ (0 <= rest)%Q /\ (rest < 60)%Q /\
    (seconds == inject_Z (3600 * hours + 60 * minutes) + rest)%Q /\
    let hours_marker :=
      if always_include_hours || (0 <? hours)%Z
      then PyStr.str_of_int hours +:+ ":" else "" in
    let rendered :=
      hours_marker +:+ Transcription.format_02d minutes +:+ ":" +:+
      Transcription.format_06_3f rest in
    Transcription._format_timestamp seconds always_include_hours "." = rendered /\
    Transcription._format_timestamp seconds always_include_hours ","
    = PyStr.replace "." "," rendered.
Proof.
  intros Hs.
  destruct (float_mod_spec seconds 3600 eq_refl) as (Hr0 & Hr1 & Hr).
  set (r := Transcription.float_mod seconds 3600) in *.
  destruct (float_mod_spec r 60 eq_refl) as (Hs0 & Hs1 & Hrest).
  set (s := Transcription.float_mod r 60) in *.
  change (inject_Z 3600) with 3600%Q in Hr1, Hr.
  change (inject_Z 60) with 60%Q in Hs1, Hrest.
  assert (Hh : Transcription.int_of_float (seconds / 3600) = Qfloor (seconds / 3600)).
  { apply int_of_float_nonneg. apply Qle_shift_div_l; lra. }
  assert (Hm : Transcription.int_of_float (r / 60) = Qfloor (r / 60)).
  { apply int_of_float_nonneg. apply Qle_shift_div_l; lra. }
  exists (Qfloor (seconds / 3600)), (Qfloor (r / 60)), s.
  split; [apply Qfloor_nonneg, Qle_shift_div_l; lra|].
  split.
  { split; [apply Qfloor_nonneg, Qle_shift_div_l; lra|].
    assert (Hlt : (r / 60 < 60)%Q) by (apply Qlt_shift_div_r; lra).
    pose proof (Qfloor_le (r / 60)) as Hf.
    assert (Hz : (inject_Z (Qfloor (r / 60)) < inject_Z 60)%Q)
      by (change (inject_Z 60) with 60%Q; lra).
    rewrite <- Zlt_Qlt in Hz. lia. }
  split; [exact Hs0|]. split; [exact Hs1|].
  split.
  { rewrite inject_Z_plus, !inject_Z_mult.
    change (inject_Z 3600) with 3600%Q. change (inject_Z 60) with 60%Q.
    lra. }
  cbn zeta. unfold Transcription._format_timestamp.
  fold r. rewrite Hh. fold s. rewrite Hm.
  split; reflexivity.
Qed.

(** X8. For a time of at least zero seconds, the three printed fields
    take the time apart exactly: whole hours, whole minutes from 0 to 59
    and seconds in [[0, 60)], with
    [seconds = 3600 * hours + 60 * minutes + rest]; the hours are left
    out only when they are zero and not asked for, and the comma variant
    is the period variant with every period replaced. *)
Theorem format_timestamp_fields
  (seconds : Q) (always_include_hours : bool) :
  (0 <= seconds)%Q ->
  exists (hours minutes : Z) (rest : Q),
    (0 <= hours)%Z /\ (0 <= minutes <= 59)%Z /\ (0 <= rest)%Q /\ (rest < 60)%Q /\
    (seconds == inject_Z (3600 * hours + 60 * minutes) + rest)%Q /\
    let hours_marker :=
      if always_include_hours || (0 <? hours)%Z
      then PyStr.str_of_int hours +:+ ":" else "" in
    let rendered :=
      hours_marker +:+ Transcription.format_02d minutes +:+ ":" +:+
      Transcription.format_06_3f rest in
    Transcription._format_timestamp seconds always_include_hours "." = rendered /\
    Transcription._format_timestamp seconds always_include_hours ","
    = PyStr.replace "." "," rendered.
Proof. exact (timestamp_fields seconds always_include_hours). Qed.

Lemma format_timestamp_fields_witness :
  exists (hours minutes : Z) (rest : Q),
    ((7451 # 2) == inject_Z (3600 * hours + 60 * minutes) + rest)%Q.
Proof.
  assert (H : (0 <= 7451 # 2)%Q) by (unfold Qle; cbn; lia).
  destruct (format_timestamp_fields (7451 # 2) true H)
    as (h & m & r & _ & _ & _ & _ & E & _).
  exists h, m, r. exact E.
Defined.

Lemma round_half_even_up (x : Q) (z : Z) :
  Z.even z = false ->
  (inject_Z z + (1 # 2) <= x)%Q -> (x < inject_Z (z + 1))%Q ->
  Transcription.round_half_even x = (z + 1)%Z.
Proof.
  intros Hodd Hlo Hhi. unfold Transcription.round_half_even.
  rewrite (Qfloor_unique z x) by lra. rewrite Hodd.
  destruct (Qcompare_spec (x - inject_Z z) (1 # 2)) as [E|E|E];
    [reflexivity | lra | reflexivity].
Qed.

Lemma format_06_3f_sixty (x : Q) :
  (599995 # 10000 <= x)%Q -> (x < 60)%Q ->
  Transcription.format_06_3f x = "60.000".
Proof.
  intros Hlo Hhi. unfold Transcription.format_06_3f.
  rewrite (round_half_even_up (x * 1000) 59999 eq_refl).
  - replace (Qltb x 0) with false; [reflexivity|].
    symmetry. apply Qltb_false. lra.
  - change (inject_Z 59999) with 59999%Q. lra.
  - change (inject_Z (59999 + 1)) with 60000%Q. lra.
Qed.

(** X9. Rounding to milliseconds does not carry: a non-negative time
    whose seconds within the minute are at least 59.9995 is printed with
    the seconds field ["60.000"] (["60,000"] for SRT), under the hours and
    minutes of the time itself. *)
Theorem format_timestamp_sixty (seconds : Q) :
  (0 <= seconds)%Q ->
  (599995 # 10000
   <= Transcription.float_mod (Transcription.float_mod seconds 3600) 60)%Q ->
  let hours := Qfloor (seconds / 3600) in
  let minutes := Qfloor (Transcription.float_mod seconds 3600 / 60) in
  Transcription._format_timestamp seconds true "."
  = (PyStr.str_of_int hours +:+ ":") +:+
    Transcription.format_02d minutes +:+ ":60.000"
  /\
  Transcription._format_timestamp seconds true ","
  = PyStr.replace "." ","
      ((PyStr.str_of_int hours +:+ ":") +:+
       Transcription.format_02d minutes +:+ ":60.000").
Proof.
  intros Hs Hrest.
  destruct (float_mod_spec seconds 3600 eq_refl) as (Hr0 & Hr1 & _).
  set (r := Transcription.float_mod seconds 3600) in *.
  destruct (float_mod_spec r 60 eq_refl) as (Hs0 & Hs1 & _).
  change (inject_Z 3600) with 3600%Q in Hr1.
  change (inject_Z 60) with 60%Q in Hs1.
  cbn zeta. unfold Transcription._format_timestamp. fold r.
  rewrite (int_of_float_nonneg (seconds / 3600)) by (apply Qle_shift_div_l; lra).
  rewrite (int_of_float_nonneg (r / 60)) by (apply Qle_shift_div_l; lra).
  rewrite (format_06_3f_sixty _ Hrest Hs1).
  split; reflexivity.
Qed.

Lemma format_timestamp_sixty_witness :
  Transcription._format_timestamp (599996 # 10000) true "," = "0:00:60,000".
Proof.
  assert (H0 : (0 <= 599996 # 10000)%Q) by (unfold Qle; cbn; lia).
  assert (H1 : (599995 # 10000
                <= Transcription.float_mod
                     (Transcription.float_mod (599996 # 10000) 3600) 60)%Q)
    by (vm_compute; discriminate).
  rewrite (proj2 (format_timestamp_sixty (599996 # 10000) H0 H1)).
  reflexivity.
Defined.

(** *** The shape of a timestamp *)

Lemma string_of_uint_digits (d : Decimal.uint) :
  all_digits (NilEmpty.string_of_uint d) = true.
Proof. induction d; cbn; auto. Qed.

Lemma str_of_int_digits (n : Z) :
  (0 <= n)%Z ->
  all_digits (PyStr.str_of_int n) = true /\ PyStr.str_of_int n <> "".
Proof.
  intros Hn. unfold PyStr.str_of_int.
  destruct n as [|p|p]; [split; [reflexivity | discriminate] | | lia].
  cbn [Z.to_int NilZero.string_of_int]. unfold NilZero.string_of_uint.
  destruct (Pos.to_uint p) eqn:E;
    try (split; [apply (string_of_uint_digits (_ _)) | discriminate]).
  split; [reflexivity | discriminate].
Qed.

Lemma replace_dot_cons (c : ascii) (s : string) :
  PyStr.replace "." "," (String c s)
  = String (if Ascii.eqb c "." then ","%char else c) (PyStr.replace "." "," s).
Proof.
  unfold PyStr.replace. cbn [PyStr.replace_from String.prefix].
  destruct (ascii_dec "." c) as [<- | Hne]; [destruct s; reflexivity|].
  destruct (Ascii.eqb_spec c "."); [congruence | reflexivity].
Qed.

Lemma replace_dot_app (a b : string) :
  PyStr.replace "." "," (a +:+ b)
  = PyStr.replace "." "," a +:+ PyStr.replace "." "," b.
Proof.
  induction a as [|c a IH]; [reflexivity|].
  rewrite append_cons, !replace_dot_cons, IH. reflexivity.
Qed.

Lemma is_digit_not_dot (c : ascii) : is_digit c = true -> Ascii.eqb c "." = false.
Proof.
  destruct (Ascii.eqb_spec c ".") as [-> | _]; [discriminate | reflexivity].
Qed.

Lemma replace_dot_digits (s : string) :
  all_digits s = true -> PyStr.replace "." "," s = s.
Proof.
  induction s as [|c s IH]; [reflexivity|]. cbn [all_digits].
  intros [Hc Hs]%andb_prop. rewrite replace_dot_cons, (is_digit_not_dot c Hc), IH;
    [reflexivity | exact Hs].
Qed.

Lemma two_digits_no_dot (s : string) :
  two_digits s = true -> PyStr.replace "." "," s = s.
Proof.
  intros H. apply replace_dot_digits.
  destruct s as [|a [|b [|c s]]]; try discriminate. cbn in *.
  rewrite andb_true_r. exact H.
Qed.

(** The minutes field, checked for each of its sixty values. *)
Lemma format_02d_table :
  forallb (fun m => two_digits (Transcription.format_02d (Z.of_nat m))) (seq 0 60)
  = true.
Proof. vm_compute. reflexivity. Qed.

Lemma format_02d_two_digits (m : Z) :
  (0 <= m <= 59)%Z -> two_digits (Transcription.format_02d m) = true.
Proof.
  intros Hm. pose proof format_02d_table as H.
  rewrite forallb_forall in H. specialize (H (Z.to_nat m)).
  rewrite Z2Nat.id in H by lia. apply H. apply in_seq. lia.
Qed.

Lemma length_append (a b : string) :
  String.length (a +:+ b) = (String.length a + String.length b)%nat.
Proof. induction a as [|c a IH]; [reflexivity|]. rewrite append_cons. cbn. rewrite IH. reflexivity. Qed.

Lemma append_assoc (a b c : string) : (a +:+ b) +:+ c = a +:+ (b +:+ c).
Proof. induction a as [|x a IH]; [reflexivity|]. rewrite !append_cons, IH. reflexivity. Qed.

(** Padding [whole.frac] to six characters pads the whole part to two. *)
Lemma zero_pad_seconds (whole frac : string) :
  String.length frac = 3%nat ->
  PyStr.zero_pad 6 (whole +:+ "." +:+ frac)
  = PyStr.zero_pad 2 whole +:+ "." +:+ frac.
Proof.
  intros Hf. unfold PyStr.zero_pad.
  rewrite !length_append, Hf. cbn [String.length].
  replace (6 - (String.length whole + (1 + 3)))%nat with (2 - String.length whole)%nat by lia.
  rewrite append_assoc. reflexivity.
Qed.

(** The fraction field, checked for each of its thousand values. *)
Lemma fraction_table :
  forallb (fun r =>
             match PyStr.zero_pad 3 (PyStr.str_of_int (Z.of_nat r)) with
             | String a (String b (String c EmptyString)) =>
                 is_digit a && is_digit b && is_digit c
             | _ => false
             end)
          (seq 0 1000)
  = true.
Proof. vm_compute. reflexivity. Qed.

Lemma fraction_digits (r : Z) :
  (0 <= r < 1000)%Z ->
  exists a b c,
    PyStr.zero_pad 3 (PyStr.str_of_int r) = String a (String b (String c EmptyString)) /\
    is_digit a = true /\ is_digit b = true /\ is_digit c = true.
Proof.
  intros Hr. pose proof fraction_table as H.
  rewrite forallb_forall in H. specialize (H (Z.to_nat r)).
  rewrite Z2Nat.id in H by lia.
  destruct (PyStr.zero_pad 3 (PyStr.str_of_int r)) as [|a [|b [|c [|d s]]]];
    try (discriminate H; apply in_seq; lia).
  exists a, b, c. split; [reflexivity|].
  assert (Hd : is_digit a && is_digit b && is_digit c = true)
    by (apply H, in_seq; lia).
  apply andb_prop in Hd as [[Ha Hb]%andb_prop Hc]. auto.
Qed.

(** The whole seconds, checked from 0 to 60. *)
Lemma whole_seconds_table :
  forallb (fun q => two_digits (PyStr.zero_pad 2 (PyStr.str_of_int (Z.of_nat q))))
          (seq 0 61)
  = true.
Proof. vm_compute. reflexivity. Qed.

Lemma whole_seconds_digits (q : Z) :
  (0 <= q <= 60)%Z -> two_digits (PyStr.zero_pad 2 (PyStr.str_of_int q)) = true.
Proof.
  intros Hq. pose proof whole_seconds_table as H.
  rewrite forallb_forall in H. specialize (H (Z.to_nat q)).
  rewrite Z2Nat.id in H by lia. apply H, in_seq. lia.
Qed.

Lemma thousandths_field_shape (k : Z) :
  (0 <= k <= 60000)%Z ->
  seconds_field "." (thousandths_field k) = true /\
  seconds_field "," (PyStr.replace "." "," (thousandths_field k)) = true.
Proof.
  intros Hk. unfold thousandths_field.
  destruct (fraction_digits (k mod 1000)) as (a & b & c & -> & Ha & Hb & Hc);
    [apply Z.mod_pos_bound; lia|].
  rewrite zero_pad_seconds by reflexivity.
  assert (Hq : (0 <= k / 1000 <= 60)%Z).
  { split; [apply Z.div_pos; lia|]. apply Z.div_le_upper_bound; lia. }
  pose proof (whole_seconds_digits (k / 1000) Hq) as Hw.
  destruct (PyStr.zero_pad 2 (PyStr.str_of_int (k / 1000))) as [|x [|y [|z s]]];
    try discriminate.
  cbn in Hw. apply andb_prop in Hw as [Hx Hy].
  rewrite !append_cons, !append_nil. split.
  - unfold seconds_field. rewrite Hx, Hy, Ha, Hb, Hc. reflexivity.
  - rewrite !replace_dot_cons.
    rewrite (is_digit_not_dot x Hx), (is_digit_not_dot y Hy), (is_digit_not_dot a Ha),
      (is_digit_not_dot b Hb), (is_digit_not_dot c Hc).
    unfold seconds_field. rewrite Hx, Hy, Ha, Hb, Hc. reflexivity.
Qed.

Lemma round_half_even_bounds (x : Q) :
  (Qfloor x <= Transcription.round_half_even x <= Qfloor x + 1)%Z.
Proof.
  unfold Transcription.round_half_even.
  destruct (_ ?= _)%Q; [destruct (Z.even _)| |]; lia.
Qed.

Lemma format_06_3f_thousandths (x : Q) :
  (0 <= x)%Q -> (x < 60)%Q ->
  exists k, (0 <= k <= 60000)%Z /\ Transcription.format_06_3f x = thousandths_field k.
Proof.
  intros H0 H60. exists (Transcription.round_half_even (x * 1000)).
  pose proof (round_half_even_bounds (x * 1000)) as Hb.
  assert (Hf0 : (0 <= Qfloor (x * 1000))%Z) by (apply Qfloor_nonneg; lra).
  assert (Hf1 : (Qfloor (x * 1000) < 60000)%Z).
  { pose proof (Qfloor_le (x * 1000)) as Hf.
    assert (Hz : (inject_Z (Qfloor (x * 1000)) < inject_Z 60000)%Q)
      by (change (inject_Z 60000) with 60000%Q; lra).
    rewrite <- Zlt_Qlt in Hz. exact Hz. }
  split; [lia|].
  unfold Transcription.format_06_3f, thousandths_field.
  replace (Qltb x 0) with false by (symmetry; apply Qltb_false; exact H0).
  rewrite Z.abs_eq by lia. reflexivity.
Qed.

Lemma nzhead_not_D0 (d u : Decimal.uint) : Decimal.nzhead d <> Decimal.D0 u.
Proof. induction d; cbn; try discriminate. exact IHd. Qed.

Lemma to_uint_unorm (p : positive) : Decimal.unorm (Pos.to_uint p) = Pos.to_uint p.
Proof.
  rewrite <- DecimalPos.Unsigned.to_of, DecimalPos.Unsigned.of_to. reflexivity.
Qed.

Lemma to_uint_not_D0 (p : positive) (u : Decimal.uint) :
  Pos.to_uint p <> Decimal.D0 u.
Proof.
  intros H. pose proof (to_uint_unorm p) as Hn. unfold Decimal.unorm in Hn.
  destruct (Decimal.nzhead (Pos.to_uint p)) eqn:E;
    try (rewrite <- Hn in H; discriminate H).
  - rewrite <- Hn in H. injection H as <-.
    apply (DecimalPos.Unsigned.to_uint_nonzero p). symmetry. exact Hn.
  - apply (nzhead_not_D0 _ _ E).
Qed.

(** [str] of a natural number has no leading zero, ["0"] apart. *)
Lemma str_of_int_no_leading_zero (n : Z) :
  (0 <= n)%Z ->
  exists c rest, PyStr.str_of_int n = String c rest /\ (c = "0"%char -> rest = "").
Proof.
  intros Hn. unfold PyStr.str_of_int.
  destruct n as [|p|p]; [exists "0"%char, ""; split; [reflexivity | auto] | | lia].
  cbn [Z.to_int NilZero.string_of_int]. unfold NilZero.string_of_uint.
  pose proof (to_uint_not_D0 p) as H0.
  pose proof (DecimalPos.Unsigned.to_uint_nonnil p) as Hnil.
  destruct (Pos.to_uint p) as [|u|u|u|u|u|u|u|u|u|u]; [contradiction| |..];
    try (eexists _, _; split; [reflexivity | discriminate]).
  exfalso. apply (H0 u). reflexivity.
Qed.

(** X10. For a time of at least zero seconds a timestamp is, when the
    hours are forced or not zero, the whole hours and a colon, and then
    in every case two digits of minutes, a colon, two digits of seconds,
    the decimal mark and three digits.  The hours are written in decimal,
    without padding: no leading zero, ["0"] itself apart.  The decimal mark
    is a comma when [decimal_marker] is [","] and a period for every other
    [decimal_marker]. *)
Theorem format_timestamp_shape
  (seconds : Q) (always_include_hours : bool) (decimal_marker : string) :
  (0 <= seconds)%Q ->
  let h := Qfloor (seconds / 3600) in
  let hours := PyStr.str_of_int h in
  let mark := if String.eqb decimal_marker "," then ","%char else "."%char in
  (0 <= h)%Z /\
  all_digits hours = true /\
  decimal_arg hours = Some h /\
  (exists c rest, hours = String c rest /\ (c = "0"%char -> rest = "")) /\
  exists minutes secs : string,
    two_digits minutes = true /\
    seconds_field mark secs = true /\
    Transcription._format_timestamp seconds always_include_hours decimal_marker
    = (if always_include_hours || (0 <? h)%Z then hours +:+ ":" else "") +:+
      minutes +:+ ":" +:+ secs.
Proof.
  intros Hs h hours mark.
  assert (Hh : (0 <= h)%Z) by (apply Qfloor_nonneg, Qle_shift_div_l; lra).
  destruct (str_of_int_digits h Hh) as [Hhd _].
  split; [exact Hh|]. split; [exact Hhd|]. split; [apply decimal_arg_str|].
  split; [apply str_of_int_no_leading_zero, Hh|].
  destruct (float_mod_spec seconds 3600 eq_refl) as (Hr0 & Hr1 & _).
  set (r := Transcription.float_mod seconds 3600) in *.
  destruct (float_mod_spec r 60 eq_refl) as (Hs0 & Hs1 & _).
  set (rest := Transcription.float_mod r 60) in *.
  change (inject_Z 3600) with 3600%Q in Hr1.
  change (inject_Z 60) with 60%Q in Hs1.
  set (m := Qfloor (r / 60)).
  assert (Hm : (0 <= m <= 59)%Z).
  { split; [apply Qfloor_nonneg, Qle_shift_div_l; lra|].
    assert (Hlt : (r / 60 < 60)%Q) by (apply Qlt_shift_div_r; lra).
    pose proof (Qfloor_le (r / 60)) as Hf.
    assert (Hz : (inject_Z (Qfloor (r / 60)) < inject_Z 60)%Q)
      by (change (inject_Z 60) with 60%Q; lra).
    rewrite <- Zlt_Qlt in Hz. unfold m. lia. }
  destruct (format_06_3f_thousandths rest Hs0 Hs1) as (k & Hk & Hfield).
  destruct (thousandths_field_shape k Hk) as [Hsd Hsc].
  pose proof (format_02d_two_digits m Hm) as Hmm.
  assert (Hcode :
    Transcription._format_timestamp seconds always_include_hours decimal_marker
    = let rendered :=
        (if always_include_hours || (0 <? h)%Z then hours +:+ ":" else "") +:+
        Transcription.format_02d m +:+ ":" +:+ thousandths_field k in
      if String.eqb decimal_marker ","
      then PyStr.replace "." decimal_marker rendered else rendered).
  { unfold Transcription._format_timestamp. fold r. fold rest.
    rewrite (int_of_float_nonneg (seconds / 3600)) by (apply Qle_shift_div_l; lra).
    rewrite (int_of_float_nonneg (r / 60)) by (apply Qle_shift_div_l; lra).
    fold h hours m. rewrite Hfield. reflexivity. }
  rewrite Hcode. cbn zeta. unfold mark.
  destruct (String.eqb_spec decimal_marker ",") as [-> | _].
  - exists (Transcription.format_02d m), (PyStr.replace "." "," (thousandths_field k)).
    split; [exact Hmm|]. split; [exact Hsc|].
    rewrite !replace_dot_app, (two_digits_no_dot _ Hmm).
    destruct (always_include_hours || (0 <? h)%Z).
    + unfold hours in *. rewrite replace_dot_app, (replace_dot_digits _ Hhd).
      reflexivity.
    + reflexivity.
  - exists (Transcription.format_02d m), (thousandths_field k).
    split; [exact Hmm|]. split; [exact Hsd|]. reflexivity.
Qed.

Lemma format_timestamp_shape_witness :
  exists minutes secs : string,
    two_digits minutes = true /\
    seconds_field "," secs = true /\
    Transcription._format_timestamp (7451 # 2) true ","
    = "1:" +:+ minutes +:+ ":" +:+ secs.
Proof.
  assert (H : (0 <= 7451 # 2)%Q) by (unfold Qle; cbn; lia).
  destruct (format_timestamp_shape (7451 # 2) true "," H)
    as (_ & _ & _ & _ & minutes & secs & Hm & Hsec & E).
  exists minutes, secs. split; [exact Hm|]. split; [exact Hsec | exact E].
Defined.

(** ** format_srt and format_vtt *)

Lemma append_nil_r (s : string) : s +:+ "" = s.
Proof. induction s as [|c s IH]; [reflexivity|]. rewrite append_cons, IH. reflexivity. Qed.

Lemma concat_empty_cons (a : string) (l : list string) :
  String.concat "" (a :: l) = a +:+ String.concat "" l.
Proof.
  destruct l as [|b l]; cbn [String.concat]; [rewrite append_nil_r|]; reflexivity.
Qed.

Lemma srt_loop_entries segments : forall i srt_content,
  Transcription.srt_loop i segments srt_content
  = srt_content +:+
    String.concat "" (imap (fun k => Transcription.srt_entry (i + k)) segments).
Proof.
  induction segments as [|segment rest IH]; intros i srt_content.
  - cbn. rewrite append_nil_r. reflexivity.
  - cbn [Transcription.srt_loop imap]. rewrite IH, concat_empty_cons, append_assoc.
    rewrite Nat.add_0_r. do 3 f_equal. apply imap_ext. intros k seg _. cbn.
    f_equal. lia.
Qed.

Lemma rstrip_cons (c : ascii) (s : string) :
  PyStr.is_space c = false ->
  PyStr.rstrip (String c s) = String c (PyStr.rstrip s).
Proof.
  intros Hc. cbn [PyStr.rstrip]. rewrite Hc.
  destruct (PyStr.rstrip s); reflexivity.
Qed.

Lemma lstrip_cons (c : ascii) (s : string) :
  PyStr.is_space c = false -> PyStr.lstrip (String c s) = String c s.
Proof. intros Hc. cbn [PyStr.lstrip]. rewrite Hc. reflexivity. Qed.

(** X11. The SRT output is the cues of the segments, all of them and in
    order, cue [k] (from 0) numbered [k + 1], with nothing but the
    whitespace at the very end removed; for no segment it is empty. *)
Theorem format_srt_cues (segments : list Models.WhisperSegment) :
  Transcription.format_srt segments
  = PyStr.rstrip (String.concat "" (imap Transcription.srt_entry segments)) /\
  (forall k segment, exists rest,
     Transcription.srt_entry k segment
     = PyStr.str_of_int (Z.of_nat k + 1) +:+ Transcription.nl +:+ rest) /\
  Transcription.format_srt [] = "".
Proof.
  split; [|split; [|reflexivity]].
  - unfold Transcription.format_srt, PyStr.strip.
    rewrite srt_loop_entries, append_nil. cbn [Nat.add].
    destruct segments as [|segment rest]; [reflexivity|].
    change (fun k : nat => Transcription.srt_entry k) with Transcription.srt_entry.
    set (x := String.concat "" (imap Transcription.srt_entry (segment :: rest))).
    assert (Hx : exists t, x = String "1" t).
    { unfold x. cbn [imap]. rewrite concat_empty_cons.
      unfold Transcription.srt_entry at 1.
      change (PyStr.str_of_int (Z.of_nat 0 + 1)) with "1".
      rewrite !append_cons. eexists. reflexivity. }
    destruct Hx as [t ->]. reflexivity.
  - intros k segment. unfold Transcription.srt_entry. eexists. reflexivity.
Qed.

Lemma vtt_loop_entries segments : forall vtt_content,
  Transcription.vtt_loop segments vtt_content
  = vtt_content +:+ String.concat "" (map Transcription.vtt_entry segments).
Proof.
  induction segments as [|segment rest IH]; intros vtt_content.
  - cbn. rewrite append_nil_r. reflexivity.
  - cbn [Transcription.vtt_loop map]. rewrite IH, concat_empty_cons, append_assoc.
    reflexivity.
Qed.

(** X12. The WebVTT output always begins with the header ["WEBVTT"]; what
    follows is the blank line and the cues of the segments in order, with
    the whitespace at the very end removed, and for no segment the output
    is the header alone. *)
Theorem format_vtt_header (segments : list Models.WhisperSegment) :
  Transcription.format_vtt segments
  = "WEBVTT" +:+
    PyStr.rstrip (Transcription.nl +:+ Transcription.nl +:+
                  String.concat "" (map Transcription.vtt_entry segments)) /\
  Transcription.format_vtt [] = "WEBVTT".
Proof.
  split; [|reflexivity].
  unfold Transcription.format_vtt, PyStr.strip.
  rewrite vtt_loop_entries, !append_assoc.
  set (t := Transcription.nl +:+ Transcription.nl +:+ _).
  rewrite !append_cons, !append_nil.
  rewrite lstrip_cons by reflexivity.
  rewrite !rstrip_cons by reflexivity. reflexivity.
Qed.

(** *** The arrow replacement of format_srt *)

Lemma prefix_nil (s : string) : String.prefix "" s = true.
Proof. destruct s; reflexivity. Qed.

Lemma prefix_inv (p : string) : forall s,
  String.prefix p s = true -> exists rest, s = p +:+ rest.
Proof.
  induction p as [|a p IH]; intros s H.
  - exists s. reflexivity.
  - destruct s as [|b s]; [discriminate|]. cbn in H.
    destruct (ascii_dec a b) as [<- | _]; [|discriminate].
    destruct (IH s H) as [rest ->]. exists rest. reflexivity.
Qed.

Lemma prefix_head_ne (a b : ascii) (p s : string) :
  a <> b -> String.prefix (String a p) (String b s) = false.
Proof. intros Hne. cbn. destruct (ascii_dec a b); [contradiction | reflexivity]. Qed.

Lemma str_contains_tail (pattern : string) (c : ascii) (s : string) :
  str_contains pattern (String c s) = false -> str_contains pattern s = false.
Proof. cbn [str_contains]. intros [_ H]%orb_false_elim. exact H. Qed.

Lemma str_contains_drop (pattern a : string) : forall s,
  str_contains pattern (a +:+ s) = false -> str_contains pattern s = false.
Proof.
  induction a as [|c a IH]; intros s H; [exact H|].
  rewrite append_cons in H. apply IH. apply (str_contains_tail _ c), H.
Qed.

Section ArrowReplacement.

Let R := PyStr.replace "-->" "->".

Lemma R_nil : R "" = "".
Proof. reflexivity. Qed.

Lemma R_match (rest : string) :
  R (String "-" (String "-" (String ">" rest))) = String "-" (String ">" (R rest)).
Proof.
  unfold R, PyStr.replace. cbn [PyStr.replace_from].
  rewrite !prefix_cons, prefix_nil. reflexivity.
Qed.

Lemma R_skip (c : ascii) (s : string) :
  String.prefix "-->" (String c s) = false -> R (String c s) = String c (R s).
Proof.
  intros H. unfold R, PyStr.replace. cbn [PyStr.replace_from]. rewrite H. reflexivity.
Qed.

(** The three ways a string meets the scan. *)
Lemma R_cases (s : string) :
  s = "" \/
  (exists rest, s = String "-" (String "-" (String ">" rest))) \/
  (exists c s', s = String c s' /\ String.prefix "-->" s = false).
Proof.
  destruct s as [|c s']; [left; reflexivity|]. right.
  destruct (String.prefix "-->" (String c s')) eqn:E.
  - left. apply prefix_inv in E as [rest ->]. exists rest. reflexivity.
  - right. exists c, s'. split; reflexivity.
Qed.

(** The scan keeps a leading [">"] and invents none. *)
Lemma R_head_gt (s : string) : String.prefix ">" (R s) = String.prefix ">" s.
Proof.
  destruct (R_cases s) as [-> | [[rest ->] | (c & s' & -> & H)]].
  - reflexivity.
  - rewrite R_match. rewrite !(prefix_head_ne ">" "-") by discriminate. reflexivity.
  - rewrite (R_skip c s' H). destruct (ascii_dec ">" c) as [<- | Hne].
    + rewrite !prefix_cons, !prefix_nil. reflexivity.
    + rewrite !prefix_head_ne by exact Hne. reflexivity.
Qed.

(** The output starts with ["->"] only where the input starts with
    ["-->"] or with ["->"]. *)
Lemma R_head_arrow (s : string) :
  String.prefix "->" (R s) = true ->
  String.prefix "-->" s = true \/ String.prefix "->" s = true.
Proof.
  destruct (R_cases s) as [-> | [[rest ->] | (c & s' & -> & H)]].
  - discriminate.
  - intros _. left. rewrite !prefix_cons. apply prefix_nil.
  - rewrite (R_skip c s' H). intros Hp. right.
    destruct (ascii_dec "-" c) as [<- | Hne];
      [|rewrite prefix_head_ne in Hp by exact Hne; discriminate].
    rewrite prefix_cons in *. rewrite R_head_gt in Hp. exact Hp.
Qed.

Lemma R_clean_bounded (n : nat) : forall s,
  (String.length s <= n)%nat ->
  str_contains "--->" s = false ->
  str_contains "-->" (R s) = false.
Proof.
  induction n as [|n IH]; intros s Hlen Hclean.
  - destruct s; [reflexivity | cbn in Hlen; lia].
  - destruct (R_cases s) as [-> | [[rest ->] | (c & s' & -> & H)]].
    + reflexivity.
    + rewrite R_match. cbn [str_contains].
      rewrite (prefix_cons "-"), !(prefix_head_ne "-" ">") by discriminate.
      cbn [orb].
      apply IH; [cbn in Hlen; lia|].
      apply (str_contains_drop "--->" "-->" rest). exact Hclean.
    + rewrite (R_skip c s' H). cbn [str_contains].
      rewrite (IH s') by (cbn in Hlen; try lia; apply (str_contains_tail _ c), Hclean).
      rewrite orb_false_r.
      destruct (String.prefix "-->" (String c (R s'))) eqn:E; [|reflexivity].
      exfalso.
      destruct (ascii_dec "-" c) as [<- | Hne];
        [|rewrite prefix_head_ne in E by exact Hne; discriminate].
      rewrite prefix_cons in E. apply R_head_arrow in E as [E | E].
      * cbn [str_contains] in Hclean. rewrite prefix_cons, E in Hclean. discriminate.
      * rewrite prefix_cons, E in H. discriminate.
Qed.

Lemma R_unchanged (s : string) :
  str_contains "-->" s = false -> R s = s.
Proof.
  induction s as [|c s IH]; [reflexivity|]. cbn [str_contains].
  intros [H1 H2]%orb_false_elim. rewrite (R_skip c s H1), (IH H2). reflexivity.
Qed.

End ArrowReplacement.

(** X13. The arrow replacement of [format_srt] does its work whenever the
    stripped text of the segment holds no ["--->"]: the text body then
    holds no ["-->"]; and a text without any ["-->"] is only stripped. *)
Theorem srt_text_without_arrow (segment : Models.WhisperSegment) :
  (str_contains "--->" (PyStr.strip (Models.text segment)) = false ->
   str_contains "-->" (Transcription.srt_text segment) = false) /\
  (str_contains "-->" (PyStr.strip (Models.text segment)) = false ->
   Transcription.srt_text segment = PyStr.strip (Models.text segment)).
Proof.
  unfold Transcription.srt_text. split; intros H.
  - apply (R_clean_bounded (String.length (PyStr.strip (Models.text segment))));
      [lia | exact H].
  - apply R_unchanged, H.
Qed.

Lemma srt_text_without_arrow_witness :
  str_contains "-->" (Transcription.srt_text (Models.new 0 0 1 " a --> b -->c "))
  = false.
Proof.
  apply (proj1 (srt_text_without_arrow (Models.new 0 0 1 " a --> b -->c "))).
  vm_compute. reflexivity.
Defined.

(** ** split_audio_into_chunks and convert_audio_to_wav *)

Section SplitOutcome.
Variable env : Env.
Variable audio_path : string.
Variable chunk_duration : Z.

Let cmd := window_cmd env audio_path chunk_duration.
Let path_of := Audio.chunk_path (mkdtemp env).
Let loop := Audio.split_loop env audio_path chunk_duration (mkdtemp env).

(** The loop either raises or returns a path for every index. *)
Lemma split_loop_outcome indices : forall chunk_paths w,
  (exists e, fst (loop indices chunk_paths w) = Raise e) \/
  (fst (loop indices chunk_paths w) = Ok (chunk_paths ++ map path_of indices) /\
   forall i, In i indices -> fst (ffmpeg env (cmd i)) = 0%Z).
Proof.
  induction indices as [|i rest IH]; intros chunk_paths w.
  - right. cbn. rewrite app_nil_r. split; [reflexivity | intros i []].
  - unfold loop. cbn [Audio.split_loop]. unfold mbind, M_bind, subprocess_run.
    fold (window_cmd env audio_path chunk_duration i). fold cmd. cbn [fst snd].
    destruct (fst (ffmpeg env (cmd i)) =? 0)%Z eqn:E.
    + fold loop. fold path_of.
      match goal with
      | |- context [loop rest ?p ?w'] => destruct (IH p w') as [Hr | [Hok Hall]]
      end.
      * left. exact Hr.
      * right. rewrite Hok, <- app_assoc. split; [reflexivity|].
        intros j [<- | Hj]; [apply Z.eqb_eq, E | apply Hall, Hj].
    + left. eexists. reflexivity.
Qed.

(** Up to the first failing window: its command is the last one run, and
    the chunks written before it stay on disk. *)
Lemma split_loop_first_failure before : forall k after chunk_paths w,
  (forall i, In i before -> fst (ffmpeg env (cmd i)) = 0%Z) ->
  fst (ffmpeg env (cmd k)) <> 0%Z ->
  let r := loop (before ++ k :: after) chunk_paths w in
  (exists e, fst r = Raise e) /\
  ffmpeg_calls (snd r) = ffmpeg_calls w ++ map cmd (before ++ [k]) /\
  files (snd r) = list_to_set (map path_of before) ∪ files w.
Proof.
  induction before as [|i before IH]; intros k after chunk_paths w Hok Hfail; cbn zeta.
  - unfold loop. cbn [app Audio.split_loop]. unfold mbind, M_bind, subprocess_run.
    fold (window_cmd env audio_path chunk_duration k). fold cmd. cbn [fst snd].
    apply Z.eqb_neq in Hfail. rewrite Hfail. unfold raise.
    cbn [fst snd ffmpeg_calls files map app].
    split; [eexists; reflexivity|]. split; [reflexivity|].
    rewrite list_to_set_nil. symmetry. apply (left_id_L ∅ (∪)).
  - unfold loop. cbn [app Audio.split_loop]. unfold mbind, M_bind, subprocess_run.
    fold (window_cmd env audio_path chunk_duration i). fold cmd. cbn [fst snd].
    rewrite (Hok i (or_introl eq_refl)). cbn [Z.eqb]. fold loop. fold path_of.
    match goal with
    | |- context [loop _ ?p ?w'] =>
        destruct (IH k after p w') as (Hr & Hc & Hf);
          [intros; apply Hok; right; assumption | exact Hfail |]
    end.
    cbn zeta in Hr, Hc, Hf. split; [exact Hr|]. split.
    + rewrite Hc. cbn [ffmpeg_calls]. rewrite <- app_assoc. reflexivity.
    + rewrite Hf. cbn [files]. change (map path_of (i :: before)) with (path_of i :: map path_of before).
      rewrite list_to_set_cons. apply set_eq. intros x.
      rewrite !elem_of_union. tauto.
Qed.

End SplitOutcome.

(** X14. [split_audio_into_chunks] is all or nothing: whatever the
    recording, the chunk duration and the tool do, it raises nothing, and
    it returns either the original path alone or, for a readable recording
    longer than the chunk duration, the files [chunk_0.wav], ...,
    [chunk_<n-1>.wav] of all [n = ceil(duration / chunk_duration)] windows,
    the tool having succeeded on every one of them.  A list that stops
    before the last window is never returned. *)
Theorem split_all_or_nothing
  (env : Env) (audio_path : string) (chunk_duration : Z) (w : World) :
  let r := fst (Audio.split_audio_into_chunks env audio_path chunk_duration w) in
  r = Ok [audio_path] \/
  exists frames rate,
    wave_open env audio_path = Ok (frames, rate) /\
    rate <> 0%Z /\ chunk_duration <> 0%Z /\
    (inject_Z chunk_duration < duration_of frames rate)%Q /\
    let n := num_chunks (duration_of frames rate) chunk_duration in
    r = Ok (map (fun k => mkdtemp env +:+ "/chunk_" +:+
                          PyStr.str_of_int (Z.of_nat k) +:+ ".wav")
                (seq 0 n)) /\
    forall i, (i < n)%nat ->
      fst (ffmpeg env
             [ "ffmpeg"; "-y";
               "-ss"; PyStr.str_of_int (Z.of_nat i * chunk_duration);
               "-i"; audio_path;
               "-t"; PyStr.str_of_int chunk_duration;
               "-c:a"; "pcm_s16le"; "-ar"; "16000"; "-ac"; "1";
               mkdtemp env +:+ "/chunk_" +:+ PyStr.str_of_int (Z.of_nat i) +:+
               ".wav" ])
      = 0%Z.
Proof.
  cbn zeta. unfold Audio.split_audio_into_chunks, try_except, mbind, M_bind, lift,
    Audio.true_div, mret, M_ret, raise, make_dir.
  destruct (wave_open env audio_path) as [[frames rate]|e]; [|left; reflexivity].
  cbn [fst snd].
  destruct (Qeq_bool (inject_Z rate) 0) eqn:Hrate; [left; reflexivity|].
  destruct (Qltb (inject_Z chunk_duration) (inject_Z frames / inject_Z rate))
    eqn:Hlt; cbn [negb]; [|left; reflexivity].
  destruct (Qeq_bool (inject_Z chunk_duration) 0) eqn:HC; [left; reflexivity|].
  match goal with |- context [seq 0 ?x] => set (n := x) end.
  match goal with
  | |- context [Audio.split_loop _ _ _ _ _ _ ?w0] =>
      destruct (split_loop_outcome env audio_path chunk_duration (seq 0 n) [] w0)
        as [[e He] | [Hok Hall]]
  end.
  - left. destruct (Audio.split_loop _ _ _ _ _ _ _) as [[paths|e'] w'];
      cbn [fst] in *; [discriminate | reflexivity].
  - right. exists frames, rate.
    destruct (Audio.split_loop _ _ _ _ _ _ _) as [[paths|e'] w'];
      cbn [fst] in *; [|discriminate].
    split; [reflexivity|].
    split; [intros ->; discriminate Hrate|].
    split; [intros ->; discriminate HC|].
    split; [apply Qltb_true, Hlt|].
    split; [exact Hok|]. intros i Hi.
    apply (Hall i), in_seq.
    unfold num_chunks, duration_of in Hi. fold n in Hi. lia.
Qed.

(** X15. A recording that cannot be read, a frame rate of zero and a chunk
    duration of zero all end the same way: the original path alone comes
    back, no command is run and no file is written. *)
Theorem split_unreadable_or_degenerate
  (env : Env) (audio_path : string) (chunk_duration : Z) (w : World) :
  (exists e, wave_open env audio_path = Raise e) \/
  (exists frames, wave_open env audio_path = Ok (frames, 0%Z)) \/
  (exists frames rate, wave_open env audio_path = Ok (frames, rate) /\
                       chunk_duration = 0%Z) ->
  Audio.split_audio_into_chunks env audio_path chunk_duration w
  = (Ok [audio_path], w).
Proof.
  unfold Audio.split_audio_into_chunks, try_except, mbind, M_bind, lift,
    Audio.true_div, mret, M_ret, raise.
  intros [[e ->] | [[frames ->] | (frames & rate & -> & ->)]].
  - reflexivity.
  - reflexivity.
  - cbn [fst snd].
    destruct (Qeq_bool (inject_Z rate) 0); [reflexivity|].
    destruct (Qltb (inject_Z 0) (inject_Z frames / inject_Z rate));
      reflexivity.
Qed.

Lemma split_unreadable_or_degenerate_witness :
  Audio.split_audio_into_chunks (example_env ffmpeg_ok) "/tmp/tmpconv.wav" 0
    empty_world
  = (Ok ["/tmp/tmpconv.wav"], empty_world).
Proof.
  apply split_unreadable_or_degenerate.
  right. right. exists (16000 * 700)%Z, 16000%Z. split; reflexivity.
Defined.

(** X16. A negative chunk duration makes a readable recording come back
    as no chunk at all: the result is the empty list, not the original
    path.  No command is run and no file is written, but the temporary
    directory has been made by then, and it is left behind. *)
Theorem split_negative_chunk_duration
  (env : Env) (audio_path : string) (chunk_duration frames rate : Z) (w : World) :
  wave_open env audio_path = Ok (frames, rate) ->
  (0 <= frames)%Z -> (0 < rate)%Z -> (chunk_duration < 0)%Z ->
  let r := Audio.split_audio_into_chunks env audio_path chunk_duration w in
  fst r = Ok [] /\
  ffmpeg_calls (snd r) = ffmpeg_calls w /\
  files (snd r) = files w /\
  dirs (snd r) = {[ mkdtemp env ]} ∪ dirs w.
Proof.
  intros Hwave Hf Hr HC.
  assert (Hc : (inject_Z chunk_duration < 0)%Q)
    by (change 0%Q with (inject_Z 0); rewrite <- Zlt_Qlt; exact HC).
  assert (Hrq : (0 < inject_Z rate)%Q)
    by (change 0%Q with (inject_Z 0); rewrite <- Zlt_Qlt; exact Hr).
  assert (Hfq : (0 <= inject_Z frames)%Q)
    by (change 0%Q with (inject_Z 0); rewrite <- Zle_Qle; exact Hf).
  assert (HD : (0 <= duration_of frames rate)%Q)
    by (unfold duration_of; apply Qle_shift_div_l; lra).
  cbn zeta.
  rewrite (split_long env audio_path chunk_duration frames rate Hwave) by (lia || lra).
  assert (Hn : num_chunks (duration_of frames rate) chunk_duration = 0%nat).
  { unfold num_chunks.
    assert (Hq : (duration_of frames rate / inject_Z chunk_duration <= 0)%Q).
    { assert (E : (duration_of frames rate / inject_Z chunk_duration
                   == - (duration_of frames rate / - inject_Z chunk_duration))%Q)
        by (field; lra).
      rewrite E.
      assert ((0 <= duration_of frames rate / - inject_Z chunk_duration)%Q)
        by (apply Qle_shift_div_l; lra).
      lra. }
    apply Qceiling_resp_le in Hq. change (Qceiling 0) with 0%Z in Hq. lia. }
  rewrite Hn. repeat split; reflexivity.
Qed.

Lemma split_negative_chunk_duration_witness :
  let r := Audio.split_audio_into_chunks (example_env ffmpeg_ok)
             "/tmp/tmpconv.wav" (-300) empty_world in
  fst r = Ok [] /\ "/tmp/tmpchunks" ∈ dirs (snd r).
Proof.
  destruct (split_negative_chunk_duration (example_env ffmpeg_ok) "/tmp/tmpconv.wav"
              (-300) (16000 * 700) 16000 empty_world eq_refl)
    as (Hr & _ & _ & Hd); [discriminate | reflexivity | reflexivity |].
  split; [exact Hr|]. rewrite Hd.
  apply elem_of_union. left. apply elem_of_singleton. reflexivity.
Defined.

(** X17. When window [k] is the first one the tool fails on, the function
    stops there: the commands of windows [0 .. k] are the only ones run,
    the original path alone is returned, and the [k] chunk files written
    before the failure stay on disk. *)
Theorem split_failure_leaves_chunks
  (env : Env) (audio_path : string) (chunk_duration frames rate : Z)
  (k : nat) (w : World) :
  wave_open env audio_path = Ok (frames, rate) ->
  rate <> 0%Z ->
  chunk_duration <> 0%Z ->
  (inject_Z chunk_duration < duration_of frames rate)%Q ->
  (k < num_chunks (duration_of frames rate) chunk_duration)%nat ->
  (forall i, (i < k)%nat ->
     fst (ffmpeg env (window_cmd env audio_path chunk_duration i)) = 0%Z) ->
  fst (ffmpeg env (window_cmd env audio_path chunk_duration k)) <> 0%Z ->
  let r := Audio.split_audio_into_chunks env audio_path chunk_duration w in
  fst r = Ok [audio_path] /\
  ffmpeg_calls (snd r)
  = ffmpeg_calls w ++
    map (window_cmd env audio_path chunk_duration) (seq 0 (S k)) /\
  files (snd r)
  = list_to_set (map (Audio.chunk_path (mkdtemp env)) (seq 0 k)) ∪ files w.
Proof.
  intros Hwave Hrate HC Hlt Hk Hok Hfail. cbn zeta.
  rewrite (split_long env audio_path chunk_duration frames rate Hwave Hrate w HC Hlt).
  set (n := num_chunks (duration_of frames rate) chunk_duration) in *.
  assert (Hseq : seq 0 n = seq 0 k ++ k :: seq (S k) (n - S k)).
  { replace n with (k + S (n - S k))%nat at 1 by lia.
    rewrite seq_app. reflexivity. }
  rewrite Hseq. unfold try_except, mret, M_ret.
  destruct (split_loop_first_failure env audio_path chunk_duration (seq 0 k) k
              (seq (S k) (n - S k)) []
              (mkWorld (files w) ({[ mkdtemp env ]} ∪ dirs w) (ffmpeg_calls w)))
    as ([e He] & Hc & Hf);
    [intros i Hi; apply Hok; apply in_seq in Hi; lia | exact Hfail |].
  cbn zeta in He, Hc, Hf.
  destruct (Audio.split_loop _ _ _ _ _ _ _) as [[paths|e'] w'];
    cbn [fst snd] in *; [discriminate|].
  split; [reflexivity|]. split; [|exact Hf].
  rewrite Hc. f_equal. f_equal. rewrite seq_S. reflexivity.
Qed.

Lemma split_failure_leaves_chunks_witness :
  "/tmp/tmpchunks/chunk_0.wav"
  ∈ files (snd (Audio.split_audio_into_chunks
                  (example_env ffmpeg_fails_second_window)
                  "/tmp/tmpconv.wav" 300 empty_world)).
Proof.
  destruct (split_failure_leaves_chunks (example_env ffmpeg_fails_second_window)
              "/tmp/tmpconv.wav" 300 (16000 * 700) 16000 1 empty_world)
    as (_ & _ & ->).
  - reflexivity.
  - discriminate.
  - discriminate.
  - reflexivity.
  - vm_compute. lia.
  - intros i Hi. assert (i = 0%nat) as -> by lia. reflexivity.
  - vm_compute. discriminate.
  - apply elem_of_union. left. apply elem_of_list_to_set. left.
Defined.

(** X18. [convert_audio_to_wav] runs one command.  When the tool succeeds
    it returns the path of its temporary file, which then exists; when the
    tool fails it raises an exception carrying the tool's error output and
    the temporary file is gone.  No other file is touched either way. *)
Theorem convert_audio_to_wav_outcome
  (env : Env) (audio_path : string) (w : World) :
  let output_path := named_temporary_file env in
  let run := ffmpeg env (Audio.convert_cmd audio_path output_path) in
  let r := Audio.convert_audio_to_wav env audio_path w in
  ffmpeg_calls (snd r)
  = ffmpeg_calls w ++ [Audio.convert_cmd audio_path output_path] /\
  (forall path, path <> output_path ->
     (path ∈ files (snd r) <-> path ∈ files w)) /\
  (fst run = 0%Z -> fst r = Ok output_path /\ output_path ∈ files (snd r)) /\
  (fst run <> 0%Z ->
   fst r = Raise (Exception ("Failed to convert audio: " +:+ snd run)) /\
   output_path ∉ files (snd r)).
Proof.
  cbn zeta. unfold Audio.convert_audio_to_wav, try_except, mbind, M_bind,
    create_file, subprocess_run, unlink_if_exists, mret, M_ret, raise.
  cbn [fst snd files ffmpeg_calls].
  destruct (fst (ffmpeg env _) =? 0)%Z eqn:E; cbn [fst snd files ffmpeg_calls].
  - apply Z.eqb_eq in E. split; [reflexivity|]. split.
    + intros path Hne. rewrite !elem_of_union, !elem_of_singleton. tauto.
    + split; [|intros Hne; contradiction].
      intros _. split; [reflexivity|].
      apply elem_of_union. left. apply elem_of_singleton. reflexivity.
  - apply Z.eqb_neq in E. split; [reflexivity|]. split.
    + intros path Hne.
      rewrite elem_of_difference, elem_of_union, !elem_of_singleton. tauto.
    + split; [intros H0; contradiction|].
      intros _. split; [reflexivity|].
      rewrite elem_of_difference, elem_of_singleton. tauto.
Qed.

Lemma convert_audio_to_wav_outcome_witness :
  fst (Audio.convert_audio_to_wav (example_env ffmpeg_fails_conversion)
         "/tmp/parakeet/upload_0123456789abcdef.mp3" empty_world)
  = Raise (Exception "Failed to convert audio: Invalid data found when processing input").
Proof.
  apply (proj2 (proj2 (proj2 (convert_audio_to_wav_outcome
                                (example_env ffmpeg_fails_conversion)
                                "/tmp/parakeet/upload_0123456789abcdef.mp3"
                                empty_world)))).
  vm_compute. discriminate.
Defined.

(** ** The transcription endpoint, in general *)

Section Handler.
Variable env : Env.
Variable asr : string -> result (list Transcription.AsrHypothesis).
Variable req : Api.Request.

Let temp_file : string :=
  config_temp_dir env +:+ "/" +:+ "upload_" +:+ urandom_hex env +:+ Api.file_suffix req.
Let output_path : string := named_temporary_file env.
Let convert_run : Z * string := ffmpeg env (Audio.convert_cmd temp_file output_path).

Lemma convert_success (audio_path : string) (w : World) :
  fst (ffmpeg env (Audio.convert_cmd audio_path output_path)) = 0%Z ->
  Audio.convert_audio_to_wav env audio_path w
  = (Ok output_path,
     mkWorld ({[ output_path ]} ∪ ({[ output_path ]} ∪ files w)) (dirs w)
             (ffmpeg_calls w ++ [Audio.convert_cmd audio_path output_path])).
Proof.
  intros H. unfold Audio.convert_audio_to_wav, try_except, mbind, M_bind,
    create_file, subprocess_run, unlink_if_exists, mret, M_ret, raise.
  fold output_path. cbn [fst snd files dirs ffmpeg_calls]. rewrite H. reflexivity.
Qed.

Lemma convert_failure (audio_path : string) (w : World) :
  fst (ffmpeg env (Audio.convert_cmd audio_path output_path)) <> 0%Z ->
  Audio.convert_audio_to_wav env audio_path w
  = (Raise (Exception ("Failed to convert audio: " +:+
                       snd (ffmpeg env (Audio.convert_cmd audio_path output_path)))),
     mkWorld (({[ output_path ]} ∪ files w) ∖ {[ output_path ]}) (dirs w)
             (ffmpeg_calls w ++ [Audio.convert_cmd audio_path output_path])).
Proof.
  intros H. apply Z.eqb_neq in H.
  unfold Audio.convert_audio_to_wav, try_except, mbind, M_bind,
    create_file, subprocess_run, unlink_if_exists, mret, M_ret, raise.
  fold output_path. cbn [fst snd files dirs ffmpeg_calls]. rewrite H. reflexivity.
Qed.

(** Removing the chunks removes files only. *)
Lemma unlink_chunks_outcome (wav_file : string) (audio_chunks : list string) :
  forall w, exists w',
    Api.unlink_chunks wav_file audio_chunks w = (Ok (), w') /\
    files w' ⊆ files w /\ ffmpeg_calls w' = ffmpeg_calls w.
Proof.
  induction audio_chunks as [|chunk rest IH]; intros w.
  - exists w. repeat split. reflexivity.
  - cbn [Api.unlink_chunks]. unfold mbind, M_bind.
    destruct (negb (String.eqb chunk wav_file)).
    + unfold unlink_if_exists at 1.
      destruct (IH (mkWorld (files w ∖ {[ chunk ]}) (dirs w) (ffmpeg_calls w)))
        as (w' & -> & Hf & Hc).
      exists w'. split; [reflexivity|]. split; [|exact Hc].
      cbn [files] in Hf. intros x Hx. apply Hf in Hx.
      apply elem_of_difference in Hx. tauto.
    + unfold mret, M_ret. destruct (IH w) as (w' & -> & Hf & Hc).
      exists w'. auto.
Qed.

Lemma split_never_raises (audio_path : string) (chunk_duration : Z) (w : World) :
  exists audio_chunks w',
    Audio.split_audio_into_chunks env audio_path chunk_duration w
    = (Ok audio_chunks, w').
Proof.
  unfold Audio.split_audio_into_chunks, try_except.
  match goal with
  | |- context [match ?m with pair _ _ => _ end] => destruct m as [[paths|e] w']
  end; eexists; eexists; reflexivity.
Qed.

(** What the handler does once the conversion has succeeded: the chunks
    are cut, the upload and the converted file are removed, and an
    unsupported format ends in an exception. *)
Lemma transcribe_body_after_conversion (w : World) :
  fst convert_run = 0%Z ->
  let r := Api.transcribe_body env asr req w in
  (temp_file ∉ files (snd r)) /\ (output_path ∉ files (snd r)) /\
  (~ In (Api.response_format req) Api.supported_formats ->
   exists e, fst r = Raise e).
Proof.
  intros Hconv. cbn zeta.
  remember (Api.transcribe_body env asr req w) as r eqn:Hr.
  unfold Api.transcribe_body in Hr. fold temp_file in Hr.
  unfold mbind, M_bind, make_dir, create_file in Hr.
  rewrite (convert_success temp_file _ Hconv) in Hr.
  match type of Hr with
  | context [Audio.split_audio_into_chunks env output_path ?c ?w1] =>
      destruct (split_never_raises output_path c w1) as (audio_chunks & w2 & Hs);
        rewrite Hs in Hr
  end.
  change (unlink_if_exists temp_file w2)
    with (@Ok unit (), mkWorld (files w2 ∖ {[ temp_file ]}) (dirs w2) (ffmpeg_calls w2))
    in Hr.
  cbv beta iota in Hr.
  set (w3 := mkWorld (files w2 ∖ {[ temp_file ]}) (dirs w2) (ffmpeg_calls w2)) in Hr.
  assert (H3 : exists w4,
             (if negb (String.eqb output_path temp_file)
              then unlink_if_exists output_path else mret ()) w3 = (Ok (), w4) /\
             (temp_file ∉ files w4) /\ (output_path ∉ files w4)).
  { destruct (String.eqb_spec output_path temp_file) as [Heq | Hne]; cbn [negb].
    - exists w3. split; [reflexivity|]. rewrite Heq.
      assert (temp_file ∉ files w3)
        by (cbn [files w3]; rewrite elem_of_difference, elem_of_singleton; tauto).
      tauto.
    - eexists. split; [reflexivity|]. cbn [files w3].
      rewrite !elem_of_difference, !elem_of_singleton. tauto. }
  destruct H3 as (w4 & Hw4 & Ht4 & Ho4). rewrite Hw4 in Hr. cbv beta iota in Hr.
  destruct (unlink_chunks_outcome output_path audio_chunks w4)
    as (w5 & Hw5 & Hsub & _).
  rewrite Hw5 in Hr. cbv beta iota in Hr.
  assert (Ht5 : temp_file ∉ files w5) by (intros Hin; apply Ht4, Hsub, Hin).
  assert (Ho5 : output_path ∉ files w5) by (intros Hin; apply Ho4, Hsub, Hin).
  unfold mret, M_ret, raise in Hr.
  destruct (String.eqb_spec (Api.response_format req) "json") as [E1|N1];
    [subst r; cbn [fst snd]; split; [|split]; try assumption;
     intros Hfmt; exfalso; apply Hfmt; rewrite E1; cbn; tauto|].
  destruct (String.eqb_spec (Api.response_format req) "text") as [E2|N2];
    [subst r; cbn [fst snd]; split; [|split]; try assumption;
     intros Hfmt; exfalso; apply Hfmt; rewrite E2; cbn; tauto|].
  destruct (String.eqb_spec (Api.response_format req) "srt") as [E3|N3];
    [subst r; cbn [fst snd]; split; [|split]; try assumption;
     intros Hfmt; exfalso; apply Hfmt; rewrite E3; cbn; tauto|].
  destruct (String.eqb_spec (Api.response_format req) "vtt") as [E4|N4];
    [subst r; cbn [fst snd]; split; [|split]; try assumption;
     intros Hfmt; exfalso; apply Hfmt; rewrite E4; cbn; tauto|].
  destruct (String.eqb_spec (Api.response_format req) "verbose_json") as [E5|N5];
    [subst r; cbn [fst snd]; split; [|split]; try assumption;
     intros Hfmt; exfalso; apply Hfmt; rewrite E5; cbn; tauto|].
  subst r. cbn [fst snd]. split; [assumption|]. split; [assumption|].
  intros _. eexists. reflexivity.
Qed.

(** What the handler does when the conversion fails. *)
Lemma transcribe_body_failed_conversion (w : World) :
  fst convert_run <> 0%Z ->
  Api.transcribe_body env asr req w
  = (Raise (Exception ("Failed to convert audio: " +:+ snd convert_run)),
     mkWorld (({[ output_path ]} ∪ ({[ temp_file ]} ∪ files w)) ∖ {[ output_path ]})
             ({[ config_temp_dir env ]} ∪ dirs w)
             (ffmpeg_calls w ++ [Audio.convert_cmd temp_file output_path])).
Proof.
  intros Hconv. unfold Api.transcribe_body. fold temp_file.
  unfold mbind at 1, M_bind at 1, make_dir at 1.
  unfold mbind at 1, M_bind at 1, create_file at 1.
  unfold mbind at 1, M_bind at 1.
  rewrite (convert_failure temp_file _ Hconv). reflexivity.
Qed.

End Handler.

(** X19. With the model loaded, a request for a format other than
    [json], [text], [srt], [vtt] and [verbose_json] is answered with
    status 500, whatever else happens while it is processed. *)
Theorem unsupported_format_always_500
  (env : Env) (asr : string -> result (list Transcription.AsrHypothesis))
  (req : Api.Request) (w : World) :
  asr_model env = Some asr ->
  ~ In (Api.response_format req) Api.supported_formats ->
  Api.status_of (fst (Api.transcribe_audio env req w)) = 500%Z.
Proof.
  intros Hmodel Hfmt. unfold Api.transcribe_audio. rewrite Hmodel.
  unfold try_except.
  set (out := named_temporary_file env).
  set (temp := config_temp_dir env +:+ "/" +:+ "upload_" +:+ urandom_hex env +:+
               Api.file_suffix req).
  destruct (Z.eq_dec (fst (ffmpeg env (Audio.convert_cmd temp out))) 0%Z) as [H0 | H0].
  - destruct (transcribe_body_after_conversion env asr req w H0) as (_ & _ & Hraise).
    destruct (Hraise Hfmt) as [e He].
    destruct (Api.transcribe_body env asr req w) as [[resp|e'] w'];
      cbn [fst] in He; [discriminate | reflexivity].
  - rewrite (transcribe_body_failed_conversion env asr req w H0). reflexivity.
Qed.

Lemma unsupported_format_always_500_witness :
  Api.status_of
    (fst (Api.transcribe_audio (example_env ffmpeg_fails_second_window)
            (example_request "yaml") empty_world))
  = 500%Z.
Proof.
  apply (unsupported_format_always_500 _ example_asr); [reflexivity|].
  cbn. intros [H | [H | [H | [H | [H | []]]]]]; discriminate.
Defined.

(** X20. The answer is 503 exactly when the model is not loaded, and then
    nothing has been written or run; with the model loaded the answer is
    200 or 500. *)
Theorem model_not_loaded_503 (env : Env) (req : Api.Request) (w : World) :
  let r := Api.transcribe_audio env req w in
  (Api.status_of (fst r) = 503%Z <-> asr_model env = None) /\
  (asr_model env = None -> snd r = w) /\
  (asr_model env <> None ->
   Api.status_of (fst r) = 200%Z \/ Api.status_of (fst r) = 500%Z).
Proof.
  cbn zeta. unfold Api.transcribe_audio.
  destruct (asr_model env) as [asr|].
  - unfold try_except.
    destruct (Api.transcribe_body env asr req w) as [[resp|e] w']; cbn [fst snd].
    + split; [split; discriminate|]. split; [discriminate|]. intros _. left. reflexivity.
    + split; [split; discriminate|]. split; [discriminate|]. intros _. right. reflexivity.
  - cbn. split; [tauto|]. split; [reflexivity|]. intros H. contradiction.
Qed.

(** X21. Once the conversion to WAV has succeeded, the request leaves
    neither the uploaded copy nor the converted file behind, whatever the
    splitting does and whatever format is asked for. *)
Theorem converted_request_cleans_up
  (env : Env) (asr : string -> result (list Transcription.AsrHypothesis))
  (req : Api.Request) (w : World) :
  let temp_file :=
    config_temp_dir env +:+ "/" +:+ "upload_" +:+ urandom_hex env +:+
    Api.file_suffix req in
  let wav_file := named_temporary_file env in
  asr_model env = Some asr ->
  fst (ffmpeg env (Audio.convert_cmd temp_file wav_file)) = 0%Z ->
  let w' := snd (Api.transcribe_audio env req w) in
  (temp_file ∉ files w') /\ (wav_file ∉ files w').
Proof.
  intros temp_file wav_file Hmodel Hconv. cbn zeta.
  unfold Api.transcribe_audio. rewrite Hmodel. unfold try_except.
  destruct (transcribe_body_after_conversion env asr req w Hconv) as (Ht & Ho & _).
  fold temp_file wav_file in Ht, Ho.
  destruct (Api.transcribe_body env asr req w) as [[resp|e] w'];
    cbn [fst snd] in *; split; assumption.
Qed.

Lemma converted_request_cleans_up_witness :
  "/tmp/tmpconv.wav"
  ∉ files (snd (Api.transcribe_audio (example_env ffmpeg_fails_second_window)
                  (example_request "srt") empty_world)).
Proof.
  exact (proj2 (converted_request_cleans_up
                  (example_env ffmpeg_fails_second_window) example_asr
                  (example_request "srt") empty_world eq_refl eq_refl)).
Defined.

(** X22. When the conversion to WAV fails, the request is answered with
    status 500 and the tool's error output as detail, no further command
    is run, and the uploaded copy stays on disk. *)
Theorem failed_conversion_keeps_upload
  (env : Env) (asr : string -> result (list Transcription.AsrHypothesis))
  (req : Api.Request) (w : World) :
  let temp_file :=
    config_temp_dir env +:+ "/" +:+ "upload_" +:+ urandom_hex env +:+
    Api.file_suffix req in
  let wav_file := named_temporary_file env in
  let run := ffmpeg env (Audio.convert_cmd temp_file wav_file) in
  asr_model env = Some asr ->
  fst run <> 0%Z ->
  temp_file <> wav_file ->
  let r := Api.transcribe_audio env req w in
  fst r = Raise (HTTPException 500 ("Failed to convert audio: " +:+ snd run)) /\
  ffmpeg_calls (snd r) = ffmpeg_calls w ++ [Audio.convert_cmd temp_file wav_file] /\
  temp_file ∈ files (snd r).
Proof.
  intros temp_file wav_file run Hmodel Hconv Hne. cbn zeta.
  unfold Api.transcribe_audio. rewrite Hmodel. unfold try_except.
  rewrite (transcribe_body_failed_conversion env asr req w Hconv).
  unfold raise. cbn [fst snd files ffmpeg_calls str_of_exn].
  split; [reflexivity|]. split; [reflexivity|].
  fold temp_file wav_file.
  rewrite elem_of_difference, !elem_of_union, !elem_of_singleton. tauto.
Qed.

Lemma failed_conversion_keeps_upload_witness :
  ffmpeg_calls
    (snd (Api.transcribe_audio (example_env ffmpeg_fails_conversion)
            (example_request "srt") empty_world))
  = [Audio.convert_cmd "/tmp/parakeet/upload_0123456789abcdef.mp3" "/tmp/tmpconv.wav"].
Proof.
  refine (proj1 (proj2 (failed_conversion_keeps_upload
                          (example_env ffmpeg_fails_conversion) example_asr
                          (example_request "srt") empty_world eq_refl _ _))).
  - vm_compute. discriminate.
  - vm_compute. discriminate.
Defined.

(** ** Speaker prefixes, in general *)

Lemma prefix_segment_prepends (st : Api.PrefixState) (segment : Models.WhisperSegment) :
  exists p,
    snd (Api.prefix_segment st segment)
    = Models.set_text segment (p +:+ Models.text segment).
Proof.
  unfold Api.prefix_segment.
  destruct (Transcription.truthy_speaker segment) as [lbl|];
    [|exists ""; symmetry; apply set_text_same].
  destruct (PyStr.startswith "speaker_" lbl);
    [|exists ""; symmetry; apply set_text_same].
  destruct (PyStr.int _) as [n|].
  - destruct (Api.differs lbl _);
      [destruct (bool_decide _)|]; cbn [snd];
      [eexists; reflexivity | eexists; reflexivity |
       exists ""; symmetry; apply set_text_same].
  - destruct (Api.differs "Speaker" _); cbn [snd];
      [eexists; reflexivity | exists ""; symmetry; apply set_text_same].
Qed.

(** X23. Putting the speakers into the text only ever puts something in
    front of a text: every segment comes out in its place with its id,
    times, speaker and all other fields as they were, and with a text that
    ends with the text it had. *)
Theorem include_speakers_only_prepends (all_segments : list Models.WhisperSegment) :
  Forall2 (fun before after =>
             exists p, after = Models.set_text before (p +:+ Models.text before))
          all_segments
          (fst (Api.include_speakers_in_text all_segments)).
Proof.
  unfold Api.include_speakers_in_text. cbn [fst].
  generalize (Api.mkPrefixState None ∅).
  induction all_segments as [|segment rest IH]; intros st; cbn [Api.prefix_loop];
    constructor; [apply prefix_segment_prepends | apply IH].
Qed.

Lemma speaker_label_not_generic (lbl : string) :
  PyStr.startswith "speaker_" lbl = true -> Api.differs "Speaker" (Some lbl) = true.
Proof.
  intros H. apply differs_true. intros [= ->]. discriminate.
Qed.

(** One step of the loop on a label with the prefix but without a
    number. *)
Lemma prefix_segment_generic st segment lbl :
  Models.speaker segment = Some lbl ->
  PyStr.startswith "speaker_" lbl = true ->
  PyStr.int (List.last (PyStr.split "_" lbl) "") = None ->
  Api.prefix_segment st segment =
  if Api.differs "Speaker" (Api.previous_speaker st)
  then (Api.mkPrefixState (Some "Speaker") (Api.seen_speakers st),
        Models.set_text segment ("Speaker: " +:+ Models.text segment))
  else (st, segment).
Proof.
  intros Hs Hp Hi. unfold Api.prefix_segment, Transcription.truthy_speaker.
  rewrite Hs. destruct lbl as [|c lbl']; [discriminate|].
  rewrite Hp, Hi. reflexivity.
Qed.

(** X24. A label with the ["speaker_"] prefix whose last component is not
    an integer is shown as ["Speaker: "].  Two such labels in a row, even
    different ones, count as one speaker: the second gets no prefix.  And
    such a segment does end the run of a numbered speaker: in
    [[A, X, A]] the third segment gets the short prefix of [A]. *)
Theorem generic_speaker_prefix
  (sA sX sY sA' : Models.WhisperSegment) (A X Y : string) (n : Z) :
  Models.speaker sA = Some A -> speaker_number A = Some n ->
  Models.speaker sA' = Some A ->
  Models.speaker sX = Some X -> PyStr.startswith "speaker_" X = true ->
  PyStr.int (List.last (PyStr.split "_" X) "") = None ->
  Models.speaker sY = Some Y -> PyStr.startswith "speaker_" Y = true ->
  PyStr.int (List.last (PyStr.split "_" Y) "") = None ->
  map Models.text (fst (Api.include_speakers_in_text [sX; sY]))
  = ["Speaker: " +:+ Models.text sX; Models.text sY] /\
  map Models.text (fst (Api.include_speakers_in_text [sA; sX; sA']))
  = [ ("Speaker " +:+ PyStr.str_of_int n +:+ ": ") +:+ Models.text sA;
      "Speaker: " +:+ Models.text sX;
      (PyStr.str_of_int n +:+ ": ") +:+ Models.text sA' ].
Proof.
  intros HA Hn HA' HX HXp HXi HY HYp HYi.
  assert (HAp : PyStr.startswith "speaker_" A = true).
  { unfold speaker_number in Hn.
    destruct (PyStr.startswith "speaker_" A); [reflexivity | discriminate]. }
  unfold Api.include_speakers_in_text. cbn [fst Api.prefix_loop]. split.
  - rewrite (prefix_segment_generic _ sX X HX HXp HXi). cbn [Api.previous_speaker Api.differs fst snd].
    rewrite (prefix_segment_generic _ sY Y HY HYp HYi). cbn [Api.previous_speaker Api.differs fst snd].
    reflexivity.
  - rewrite (prefix_segment_numbered _ sA A n HA Hn).
    cbn [Api.previous_speaker Api.seen_speakers Api.differs fst snd].
    rewrite bool_decide_eq_true_2 by apply not_elem_of_empty.
    cbn [fst snd].
    rewrite (prefix_segment_generic _ sX X HX HXp HXi).
    cbn [Api.previous_speaker Api.seen_speakers fst snd].
    rewrite (speaker_label_not_generic A HAp). cbn [fst snd].
    rewrite (prefix_segment_numbered _ sA' A n HA' Hn).
    cbn [Api.previous_speaker Api.seen_speakers fst snd].
    replace (Api.differs A (Some "Speaker")) with true.
    2:{ symmetry. apply differs_true. intros [= E]. rewrite <- E in HAp. discriminate. }
    rewrite bool_decide_eq_false_2.
    2:{ intros Hnot. apply Hnot. apply elem_of_union. left.
        apply elem_of_singleton. reflexivity. }
    reflexivity.
Qed.

Lemma generic_speaker_prefix_witness :
  map Models.text
      (fst (Api.include_speakers_in_text
              [ spoken 0 "hi" speaker_A; spoken 1 "er" "speaker_guest";
                spoken 2 "there" speaker_A ]))
  = ["Speaker 1: hi"; "Speaker: er"; "1: there"].
Proof.
  exact (proj2 (generic_speaker_prefix
                  (spoken 0 "hi" speaker_A) (spoken 1 "er" "speaker_guest")
                  (spoken 1 "er" "speaker_guest") (spoken 2 "there" speaker_A)
                  speaker_A "speaker_guest" "speaker_guest" 1
                  eq_refl eq_refl eq_refl eq_refl eq_refl eq_refl
                  eq_refl eq_refl eq_refl)).
Defined.




(** ** The texts of the chunks *)


